(** * eslint-plugin-dom-security: the runtime validator and the
      no-unsafe-redirect rule, embedded and verified.

    Two parts, as in the repository:
    - [Runtime]: [src/runtime/ensure-trusted-url.ts];
    - [Rule]: [src/utils/index.ts] and [src/rules/no-unsafe-redirect.ts].

    Strings are [string]s: sequences of code units below 256.  On that
    range [toLowerCase] below is JavaScript's [String.prototype.toLowerCase]. *)

From Stdlib Require Import String Ascii List Bool Arith ZArith Lia.
From stdpp Require Import base option strings list gmap.
Import ListNotations.

Set Warnings "-register-all".

Local Open Scope bool_scope.
Local Open Scope string_scope.

(** ** String primitives of the host language *)

Module Js.

(** [xs.includes(x)] on an array of strings. *)
Definition includes (xs : list string) (x : string) : bool :=
  existsb (String.eqb x) xs.

(** [s.startsWith(p)]. *)
Definition startsWith (s p : string) : bool := String.prefix p s.

(** [s.includes(p)] on strings: [p] occurs somewhere in [s]. *)
Fixpoint strIncludes (s p : string) : bool :=
  String.prefix p s ||
  match s with
  | EmptyString => false
  | String _ s' => strIncludes s' p
  end.

Definition in_range (lo hi n : nat) : bool := (lo <=? n)%nat && (n <=? hi)%nat.

(** Lower-casing of one code unit below 256: A-Z, and the Latin-1 capitals
    U+00C0..U+00DE without the multiplication sign U+00D7. *)
Definition lowerChar (c : ascii) : ascii :=
  let n := nat_of_ascii c in
  if in_range 65 90 n then ascii_of_nat (n + 32)
  else if in_range 192 222 n && negb (n =? 215)%nat then ascii_of_nat (n + 32)
  else c.

Fixpoint toLowerCase (s : string) : string :=
  match s with
  | EmptyString => EmptyString
  | String c s' => String (lowerChar c) (toLowerCase s')
  end.

(** The class [[a-z:]]. *)
Definition isLowerOrColon (c : ascii) : bool :=
  let n := nat_of_ascii c in in_range 97 122 n || (n =? 58)%nat.

(** [s.replace(/[^a-z:]/g, "")]. *)
Fixpoint stripNonLowerColon (s : string) : string :=
  match s with
  | EmptyString => EmptyString
  | String c s' =>
      if isLowerOrColon c then String c (stripNonLowerColon s')
      else stripNonLowerColon s'
  end.

(** The class [[/\\]]. *)
Definition isSlash (c : ascii) : bool :=
  let n := nat_of_ascii c in (n =? 47)%nat || (n =? 92)%nat.

Fixpoint allSlashes (s : string) : bool :=
  match s with
  | EmptyString => true
  | String c s' => isSlash c && allSlashes s'
  end.

(** [/^[/\\]+$/.test(s)]: one or more characters, each a slash or a
    backslash. *)
Definition slashOnly (s : string) : bool :=
  match s with
  | EmptyString => false
  | String _ _ => allSlashes s
  end.

(** Some character of [s] is neither a slash nor a backslash. *)
Definition NotOnlySlashes (s : string) : Prop :=
  exists c, In c (list_ascii_of_string s) /\ c <> "/"%char /\ c <> "\"%char.

(** [s.length > 0]. *)
Definition nonEmpty (s : string) : bool :=
  match s with EmptyString => false | String _ _ => true end.

End Js.

(** ** Runtime validator: [src/runtime/ensure-trusted-url.ts] *)

Module Runtime.

(** Runtime values the validator can meet: its [url] argument is only
    typed as a string, and [window] is read as [unknown]. *)
Inductive JsValue : Type :=
| JsUndefined
| JsNull
| JsBoolean (b : bool)
| JsNumber (n : Z)
| JsString (s : string)
| JsObject (props : list (string * JsValue)).

Definition typeof (v : JsValue) : string :=
  match v with
  | JsUndefined => "undefined"
  | JsNull => "object"
  | JsBoolean _ => "boolean"
  | JsNumber _ => "number"
  | JsString _ => "string"
  | JsObject _ => "object"
  end.

Definition truthy (v : JsValue) : bool :=
  match v with
  | JsUndefined | JsNull => false
  | JsBoolean b => b
  | JsNumber n => negb (n =? 0)%Z
  | JsString s => Js.nonEmpty s
  | JsObject _ => true
  end.

Fixpoint assoc (k : string) (props : list (string * JsValue)) : option JsValue :=
  match props with
  | [] => None
  | (k', v) :: rest => if String.eqb k k' then Some v else assoc k rest
  end.

(** [k in v], for a [v] already known to be an object. *)
Definition hasProp (k : string) (v : JsValue) : bool :=
  match v with
  | JsObject props => match assoc k props with Some _ => true | None => false end
  | _ => false
  end.

(** [v.k]. *)
Definition getProp (v : JsValue) (k : string) : JsValue :=
  match v with
  | JsObject props => match assoc k props with Some x => x | None => JsUndefined end
  | _ => JsUndefined
  end.

Record EnsureTrustedUrlOptions : Type := {
  allowCrossOrigin : option bool;
  allowedProtocols : option (list string);
  allowedOrigins : option (list string)
}.

(** The default argument [options = {}]. *)
Definition noOptions : EnsureTrustedUrlOptions :=
  {| allowCrossOrigin := None; allowedProtocols := None; allowedOrigins := None |}.

(** The two fields of a parsed [URL] that the validator reads. *)
Record URL : Type := { protocol : string; origin : string }.

(** What the validator throws; every one is a [TypeError]. *)
Inductive Thrown : Type :=
| NotANonEmptyString
| InvalidURL (url reason : string)
| UnsafeURLProtocol (protocol : string)
| CrossOriginNotAllowed (origin : string)
| DangerousProtocolDetected (url : string).

Definition message (e : Thrown) : string :=
  match e with
  | NotANonEmptyString => "URL must be a non-empty string"
  | InvalidURL url reason => "Invalid URL: " +:+ url +:+ ". " +:+ reason
  | UnsafeURLProtocol p => "Unsafe URL protocol: " +:+ p
  | CrossOriginNotAllowed o => "Cross-origin URL not allowed: " +:+ o
  | DangerousProtocolDetected url =>
      "Potentially dangerous URL protocol detected: " +:+ url
  end.

(** The four error kinds the specification sorts the throws into. *)
Inductive ErrorKind : Type :=
| InvalidInput | InvalidUrl | UnsafeProtocol | CrossOriginDenied.

Definition errorKind (e : Thrown) : ErrorKind :=
  match e with
  | NotANonEmptyString => InvalidInput
  | InvalidURL _ _ => InvalidUrl
  | UnsafeURLProtocol _ => UnsafeProtocol
  | CrossOriginNotAllowed _ => CrossOriginDenied
  | DangerousProtocolDetected _ => UnsafeProtocol
  end.

(** The ambient browsing context: the global [window] binding, which a
    navigation or a mutation would change.  The binding is taken to exist
    (its value may be [undefined]). *)
Record Ambient : Type := { window : JsValue }.

(** Computations that read or write the ambient context and may throw. *)
Definition M (A : Type) : Type := Ambient -> Ambient * (Thrown + A).

Definition ret {A} (a : A) : M A := fun w => (w, inr a).
Definition throw {A} (e : Thrown) : M A := fun w => (w, inl e).
Definition bind {A B} (m : M A) (k : A -> M B) : M B :=
  fun w => match m w with
           | (w', inl e) => (w', inl e)
           | (w', inr a) => k a w'
           end.
Definition readWindow : M JsValue := fun w => (w, inr (window w)).

Declare Scope js_scope.
Delimit Scope js_scope with js.
Notation "x <- m ;; k" := (bind m (fun x => k))
  (at level 100, m at next level, right associativity) : js_scope.
Notation "m ;; k" := (bind m (fun _ => k))
  (at level 100, right associativity) : js_scope.

(** [if (b) throw e;] *)
Definition throwIf (b : bool) (e : Thrown) : M unit :=
  if b then throw e else ret tt.

(** The conditional expression that computes [currentOrigin]. *)
Definition currentOriginOf (win : JsValue) : option string :=
  if String.eqb (typeof win) "object"
     && truthy win
     && hasProp "location" win
     && String.eqb (typeof (getProp win "location")) "object"
     && truthy (getProp win "location")
     && hasProp "origin" (getProp win "location")
     && String.eqb (typeof (getProp (getProp win "location") "origin")) "string"
  then match getProp (getProp win "location") "origin" with
       | JsString o => Some o
       | _ => None
       end
  else None.

Definition defaultAllowedOrigins (currentOrigin : option string) : list string :=
  match currentOrigin with
  | Some o => if Js.nonEmpty o then [o] else []
  | None => []
  end.

Section Validator.

(** [new URL(url, base)], the URL-parsing primitive of the platform: a
    parsed URL, or the message of the error it throws. *)
Variable newURL : string -> option string -> URL + string.

Definition ensureTrustedUrl (url : JsValue) (options : EnsureTrustedUrlOptions)
  : M JsValue :=
  (win <- readWindow ;;
   let currentOrigin := currentOriginOf win in
   let allowCrossOrigin_ := default false (allowCrossOrigin options) in
   let allowedProtocols_ := default ["http:"; "https:"] (allowedProtocols options) in
   let allowedOrigins_ :=
     default (defaultAllowedOrigins currentOrigin) (allowedOrigins options) in
   throwIf (negb (truthy url) || negb (String.eqb (typeof url) "string"))
     NotANonEmptyString ;;
   match url with
   | JsString s =>
       match newURL s currentOrigin with
       | inr reason => throw (InvalidURL s reason)
       | inl parsedUrl =>
           throwIf (negb (Js.includes allowedProtocols_ (protocol parsedUrl)))
             (UnsafeURLProtocol (protocol parsedUrl)) ;;
           let isAllowedOrigin := Js.includes allowedOrigins_ (origin parsedUrl) in
           throwIf (negb isAllowedOrigin && negb allowCrossOrigin_)
             (CrossOriginNotAllowed (origin parsedUrl)) ;;
           let normalizedUrl := Js.stripNonLowerColon (Js.toLowerCase s) in
           throwIf (Js.startsWith normalizedUrl "javascript:")
             (DangerousProtocolDetected s) ;;
           ret url
       end
   | _ => throw NotANonEmptyString
   end)%js.

Definition isTrustedUrl (url : JsValue) (options : EnsureTrustedUrlOptions)
  : M bool :=
  fun w => match ensureTrustedUrl url options w with
           | (w', inr _) => (w', inr true)
           | (w', inl _) => (w', inr false)
           end.

(** The three option defaults of the destructuring assignment. *)
Definition effectiveAllowCrossOrigin (options : EnsureTrustedUrlOptions) : bool :=
  default false (allowCrossOrigin options).
Definition effectiveAllowedProtocols (options : EnsureTrustedUrlOptions)
  : list string :=
  default ["http:"; "https:"] (allowedProtocols options).
Definition effectiveAllowedOrigins
  (win : JsValue) (options : EnsureTrustedUrlOptions) : list string :=
  default (defaultAllowedOrigins (currentOriginOf win)) (allowedOrigins options).

(** Steps 1 to 4 of the validator on a string [s] in a context whose
    window is [win]: [s] is not empty, parses to [u], and the protocol of
    [u] is allowed. *)
Definition passesProtocolCheck
  (win : JsValue) (s : string) (options : EnsureTrustedUrlOptions) (u : URL) : Prop :=
  Js.nonEmpty s = true
  /\ newURL s (currentOriginOf win) = inl u
  /\ Js.includes (effectiveAllowedProtocols options) (protocol u) = true.

(** Steps 1 to 5: the origin check passes too. *)
Definition passesOriginCheck
  (win : JsValue) (s : string) (options : EnsureTrustedUrlOptions) (u : URL) : Prop :=
  passesProtocolCheck win s options u
  /\ (Js.includes (effectiveAllowedOrigins win options) (origin u)
      || effectiveAllowCrossOrigin options) = true.

End Validator.

(** *** How the specification words steps 5 and 6 *)

(** Step 5 as worded: rejected when cross-origin is not allowed and the
    parsed origin is neither the current origin nor in the [allowedOrigins]
    the caller gave. *)
Definition specCrossOriginDenied
  (win : JsValue) (options : EnsureTrustedUrlOptions) (u : URL) : bool :=
  negb (effectiveAllowCrossOrigin options)
  && negb (match currentOriginOf win with
           | Some o => String.eqb (origin u) o
           | None => false
           end)
  && negb (Js.includes (default [] (allowedOrigins options)) (origin u)).

(** Step 6 as worded: the residue of the raw input. *)
Definition specResidue (s : string) : string := Js.stripNonLowerColon s.

(** *** Concrete contexts for the examples *)

Definition windowAt (o : string) : Ambient :=
  {| window := JsObject [("location", JsObject [("origin", JsString o)])] |}.

(** Some values of the platform's [new URL(url, base)]. *)
Definition sampleNewURL (url : string) (base : option string) : URL + string :=
  if String.eqb url "javascript:alert(1)"
  then inl {| protocol := "javascript:"; origin := "null" |}
  else if String.eqb url "https://evil.com/page"
  then inl {| protocol := "https:"; origin := "https://evil.com" |}
  else if String.eqb url "https://example.com/page"
  then inl {| protocol := "https:"; origin := "https://example.com" |}
  else
    match base with
    | Some "https://example.com" =>
        if String.eqb url "/dashboard" || String.eqb url "/Javascript:foo"
        then inl {| protocol := "https:"; origin := "https://example.com" |}
        else inr "Invalid URL"
    | _ => inr "Invalid URL"
    end.

Definition exampleWindow : Ambient := windowAt "https://example.com".

(** [{ allowedOrigins: ["https://trusted.com"] }] *)
Definition trustedOnly : EnsureTrustedUrlOptions :=
  {| allowCrossOrigin := None;
     allowedProtocols := None;
     allowedOrigins := Some ["https://trusted.com"] |}.

Definition sameOriginURL : URL :=
  {| protocol := "https:"; origin := "https://example.com" |}.

(** [globalThis.window = undefined], as outside a browser. *)
Definition noWindow : Ambient := {| window := JsUndefined |}.

(** [{ allowedProtocols: ["javascript:"], allowCrossOrigin: true }] *)
Definition permissive : EnsureTrustedUrlOptions :=
  {| allowCrossOrigin := Some true;
     allowedProtocols := Some ["javascript:"];
     allowedOrigins := None |}.

End Runtime.

(** ** The rule: [src/utils/index.ts] and [src/rules/no-unsafe-redirect.ts] *)

Module Rule.

(** *** Syntax tree *)

Inductive LiteralValue : Type :=
| LitString (s : string)
| LitNumber (n : Z)
| LitBoolean (b : bool)
| LitNull
| LitRegExp (pattern : string)
| LitBigInt (n : Z).

(** [quasi.value]: the source text of a template segment and its cooked
    form. *)
Record TemplateElement : Type := { raw : string; cooked : option string }.

Definition Range : Type := nat * nat.

(** The node kinds the rule inspects; [OtherNode] stands for every other
    kind (statements, functions, blocks, ...).  An [Identifier] carries its
    source range, which tells two occurrences of a name apart. *)
Inductive Node : Type :=
| Identifier (name : string) (range : Range)
| Literal (value : LiteralValue)
| TemplateLiteral (quasis : list TemplateElement) (expressions : list Node)
| BinaryExpression (operator : string) (left right : Node)
| MemberExpression (object property : Node) (computed optional : bool)
| CallExpression (callee : Node) (arguments : list Node)
| ChainExpression (expression : Node)
| AssignmentExpression (operator : string) (left right : Node)
| VariableDeclarator (id : Node) (init : option Node)
| WithStatement (object body : Node)
| OtherNode (type : string) (children : list Node).

(** *** Scopes, as the host's scope manager hands them out *)

Inductive DefinitionType : Type :=
| DefVariable | DefParameter | DefFunctionName | DefClassName
| DefImportBinding | DefCatchClause.

Record ScopeVariable : Type := { defs : list DefinitionType }.

(** A scope holds the variables declared in it ([set]) and points to the
    scope around it ([upper]). *)
Inductive Scope : Type :=
  mkScope { set : gmap string ScopeVariable; upper : option Scope }.

Record SourceCode : Type := { getScope : Node -> Scope }.

(** *** Types, as the type checker hands them out *)

Inductive TypeFlavour : Type :=
| PlainType
| StringLiteralType (value : string)
| UnionType
| IntersectionType.

(** [symbolName]: [type.getSymbol()?.getName()]; [types]: the members of a
    union or intersection; [properties]: [type.getProperties()], each with
    [checker.getTypeOfSymbol]; [display]: [checker.typeToString(type)]. *)
Inductive TsType : Type :=
  mkTsType {
    symbolName : option string;
    flavour : TypeFlavour;
    types : list TsType;
    properties : list (string * TsType);
    display : string
  }.

Definition isUnion (t : TsType) : bool :=
  match flavour t with UnionType => true | _ => false end.
Definition isIntersection (t : TsType) : bool :=
  match flavour t with IntersectionType => true | _ => false end.
Definition isStringLiteral (t : TsType) : bool :=
  match flavour t with StringLiteralType _ => true | _ => false end.

(** *** [src/utils/index.ts] *)

Definition isSafeLiteral (node : Node) : bool :=
  match node with
  | Literal (LitString _) => true
  | TemplateLiteral _ [] => true
  | _ => false
  end.

Definition isGlobalIdentifier (node : Node) (sourceCode : SourceCode) : bool :=
  let scope := getScope sourceCode node in
  match node with
  | Identifier name _ =>
      match set scope !! name with
      | None => true
      | Some variable => (length (defs variable) =? 0)%nat
      end
  | _ => true
  end.

Fixpoint getBaseObject (node : Node) : Node :=
  match node with
  | MemberExpression object _ _ _ => getBaseObject object
  | _ => node
  end.

(** The declared return type of [getRedirectSinkType]. *)
Inductive SinkType : Type :=
| SinkHref | SinkReplace | SinkAssign | SinkNavigate | SinkLocation.

Definition sinkTypeName (k : SinkType) : string :=
  match k with
  | SinkHref => "href"
  | SinkReplace => "replace"
  | SinkAssign => "assign"
  | SinkNavigate => "navigate"
  | SinkLocation => "location"
  end.

(** [getRedirectSinkType], on a member expression with this [property]. *)
Definition sinkTypeOfProperty (property : Node) : option SinkType :=
  match property with
  | Identifier name _ =>
      if String.eqb name "href" then Some SinkHref
      else if String.eqb name "replace" then Some SinkReplace
      else if String.eqb name "assign" then Some SinkAssign
      else if String.eqb name "navigate" then Some SinkNavigate
      else None
  | _ => None
  end.

Definition getRedirectSinkType (node : Node) : option SinkType :=
  match node with
  | MemberExpression _ property _ _ => sinkTypeOfProperty property
  | _ => None
  end.

Inductive OpenCallInfo : Type :=
| OpenGlobal (identifier : Node)
| OpenMethod (object : Node).

Definition isIdentifierNamed (n : Node) (name : string) : bool :=
  match n with
  | Identifier name' _ => String.eqb name' name
  | _ => false
  end.

Definition getOpenCallInfo (node : Node) : option OpenCallInfo :=
  match node with
  | CallExpression callee _ =>
      if isIdentifierNamed callee "open" then Some (OpenGlobal callee)
      else match callee with
           | MemberExpression object property _ _ =>
               if isIdentifierNamed property "open" then Some (OpenMethod object)
               else None
           | _ => None
           end
  | _ => None
  end.

(** *** [src/rules/no-unsafe-redirect.ts] *)

Inductive RedirectObject : Type :=
| ObjLocation | ObjNavigation | ObjWindow.

Definition RedirectObject_eqb (a b : RedirectObject) : bool :=
  match a, b with
  | ObjLocation, ObjLocation | ObjNavigation, ObjNavigation
  | ObjWindow, ObjWindow => true
  | _, _ => false
  end.

(** [objectType === k], where [objectType] may be [null]. *)
Definition isObj (objectType : option RedirectObject) (k : RedirectObject) : bool :=
  match objectType with
  | Some k' => RedirectObject_eqb k' k
  | None => false
  end.

Record VariableInfo : Type := {
  node : Node;
  isLocation : bool;
  isNavigation : bool;
  isWindow : bool
}.

Record Diagnostic : Type := { at_node : Node; messageId : string }.

(** What [create(context)] closes over and never writes: the type
    information ([services] and [checker], [None] when the parser services
    are missing; the function answers [None] where the lookup throws) and
    the source code. *)
Record Context : Type := {
  typeAtLocation : option (Node -> option TsType);
  sourceCode : SourceCode
}.

(** What the visitor writes: the alias map, the stack of [with] headers
    (top at the end, as [push] and [pop] keep it) and the diagnostics
    reported so far. *)
Record State : Type := {
  trackedVariables : gmap string VariableInfo;
  withStack : list (option RedirectObject);
  reported : list Diagnostic
}.

Definition initialState : State :=
  {| trackedVariables := ∅; withStack := []; reported := [] |}.

Section Create.

Variable context : Context.

Definition getType (n : Node) : option TsType :=
  match typeAtLocation context with
  | None => None
  | Some typeAt => typeAt n
  end.

Definition hasChecker : bool :=
  match typeAtLocation context with Some _ => true | None => false end.

Definition symbolIs (t : TsType) (typeName : string) : bool :=
  match symbolName t with
  | Some n => String.eqb n typeName
  | None => false
  end.

Fixpoint hasTypeName (type : TsType) (typeName : string) : bool :=
  if negb hasChecker then false
  else
    match type with
    | mkTsType sym fl tys _ _ =>
        if match sym with Some n => String.eqb n typeName | None => false end
        then true
        else
          match fl with
          | UnionType => existsb (fun t => hasTypeName t typeName) tys
          | IntersectionType => existsb (fun t => hasTypeName t typeName) tys
          | _ => false
          end
    end.

Fixpoint findProperty (name : string) (props : list (string * TsType))
  : option TsType :=
  match props with
  | [] => None
  | (n, t) :: rest => if String.eqb n name then Some t else findProperty name rest
  end.

Definition isTrustedUrlType (type : TsType) : bool :=
  if negb hasChecker then false
  else
    match findProperty "__brand" (properties type) with
    | None => false
    | Some brandType =>
        match flavour brandType with
        | StringLiteralType value => String.eqb value "TrustedUrl"
        | _ => false
        end
    end.

(** The [while] loop of [isValueSafe]: down the left operands of [+]. *)
Fixpoint descendLeft (leftmost : Node) : Node :=
  match leftmost with
  | BinaryExpression operator left_ _ =>
      if String.eqb operator "+" then descendLeft left_ else leftmost
  | _ => leftmost
  end.

(** Lines 172-191 of the rule: the type of the value, then the call by
    name. *)
Definition isSafeByTypeOrCall (n : Node) : bool :=
  let byType :=
    match getType n with
    | Some type => isTrustedUrlType type || isStringLiteral type
    | None => false
    end in
  if byType then true
  else
    match n with
    | CallExpression callee _ => isIdentifierNamed callee "ensureTrustedUrl"
    | _ => false
    end.

Definition isValueSafe (n : Node) : bool :=
  if isSafeLiteral n then true
  else
    match n with
    | TemplateLiteral quasis (_ :: _) =>
        match quasis !! 0%nat with
        | Some firstQuasi =>
            if Js.nonEmpty (raw firstQuasi)
            then if Js.slashOnly (raw firstQuasi) then false else true
            else false
        | None => false
        end
    | BinaryExpression operator left_ _ =>
        if String.eqb operator "+" then
          match descendLeft left_ with
          | Literal (LitString value) =>
              if Js.slashOnly value then false else true
          | TemplateLiteral [quasi] _ =>
              if Js.nonEmpty (raw quasi)
              then if Js.slashOnly (raw quasi) then false else true
              else false
          | _ => false
          end
        else isSafeByTypeOrCall n
    | _ => isSafeByTypeOrCall n
    end.

(** The type block at the head of [isRedirectObject]. *)
Definition redirectObjectOfType (type : TsType) : option RedirectObject :=
  if hasTypeName type "Location" then Some ObjLocation
  else if hasTypeName type "Window" then Some ObjWindow
  else if hasTypeName type "typeof globalThis" then Some ObjWindow
  else if hasTypeName type "Document" then Some ObjWindow
  else None.

Definition redirectObjectOfVarInfo (varInfo : VariableInfo) : option RedirectObject :=
  if isLocation varInfo then Some ObjLocation
  else if isNavigation varInfo then Some ObjNavigation
  else if isWindow varInfo then Some ObjWindow
  else None.

Definition redirectObjectOfGlobalName (name : string) : option RedirectObject :=
  if String.eqb name "location" then Some ObjLocation
  else if String.eqb name "window" then Some ObjWindow
  else if String.eqb name "navigation" then Some ObjNavigation
  else None.

(** The first test of the member-expression block: both sides identifiers,
    the object a global. *)
Definition redirectObjectOfGlobalMember (object property : Node)
  : option RedirectObject :=
  match object, property with
  | Identifier objectName _, Identifier propertyName _ =>
      let isGlobal := isGlobalIdentifier object (sourceCode context) in
      if String.eqb propertyName "location" && isGlobal
         && (String.eqb objectName "window" || String.eqb objectName "document"
             || String.eqb objectName "globalThis")
      then Some ObjLocation
      else if String.eqb objectName "window"
              && String.eqb propertyName "navigation" && isGlobal
      then Some ObjNavigation
      else None
  | _, _ => None
  end.

(** The last test of the member-expression block, on the resolved object. *)
Definition redirectObjectOfWindowMember
  (objectType : option RedirectObject) (property : Node) : option RedirectObject :=
  match property with
  | Identifier propertyName _ =>
      if isObj objectType ObjWindow then
        if String.eqb propertyName "location" then Some ObjLocation
        else if String.eqb propertyName "navigation" then Some ObjNavigation
        else None
      else None
  | _ => None
  end.

(** The answer of the type block for a node: [None] when there is no
    type information or the type bears none of the four names. *)
Definition redirectObjectByType (n : Node) : option RedirectObject :=
  match getType n with
  | Some type => redirectObjectOfType type
  | None => None
  end.

(** The first answer that is not [null]: a block that does not return
    falls through to the next. *)
Definition orElse {A} (x y : option A) : option A :=
  match x with Some _ => x | None => y end.

Section Resolver.

Variable tracked : gmap string VariableInfo.

Fixpoint isRedirectObject (n : Node) : option RedirectObject :=
  orElse
    (redirectObjectByType n)
    match n with
    | Identifier name _ =>
        orElse
          match tracked !! name with
          | Some varInfo => redirectObjectOfVarInfo varInfo
          | None => None
          end
          (if isGlobalIdentifier n (sourceCode context)
           then redirectObjectOfGlobalName name
           else None)
    | MemberExpression object property _ _ =>
        orElse
          (redirectObjectOfGlobalMember object property)
          (redirectObjectOfWindowMember (isRedirectObject object) property)
    | _ => None
    end.

End Resolver.

Definition reportUnsafeRedirect (n : Node) (st : State) : State :=
  {| trackedVariables := trackedVariables st;
     withStack := withStack st;
     reported := reported st ++ [{| at_node := n; messageId := "unsafeRedirect" |}] |}.

Definition getCurrentWithObject (st : State) : option RedirectObject :=
  match last (withStack st) with
  | Some top => top
  | None => None
  end.

Definition unwrapChainExpression (n : Node) : Node :=
  match n with
  | ChainExpression expression => expression
  | _ => n
  end.

(** [if (!isValueSafe(v)) reportUnsafeRedirect(v);] *)
Definition reportUnlessSafe (v : Node) (st : State) : State :=
  if isValueSafe v then st else reportUnsafeRedirect v st.

(** [if (urlArg && !isValueSafe(urlArg)) reportUnsafeRedirect(urlArg);]
    with [urlArg = args[0]]. *)
Definition reportFirstArgUnlessSafe (args : list Node) (st : State) : State :=
  match args !! 0%nat with
  | Some urlArg => reportUnlessSafe urlArg st
  | None => st
  end.

(** A handler either returns early or falls through to its next block. *)
Inductive Flow : Type :=
| Return (st : State)
| Next (st : State).

Definition andThen (f : Flow) (k : State -> Flow) : Flow :=
  match f with
  | Return st => Return st
  | Next st => k st
  end.

Definition finish (f : Flow) : State :=
  match f with Return st | Next st => st end.

Definition onWithStatement (n : Node) (st : State) : State :=
  match n with
  | WithStatement object _ =>
      let objectType := isRedirectObject (trackedVariables st) object in
      {| trackedVariables := trackedVariables st;
         withStack := withStack st ++ [objectType];
         reported := reported st |}
  | _ => st
  end.

Definition onWithStatementExit (st : State) : State :=
  {| trackedVariables := trackedVariables st;
     withStack := removelast (withStack st);
     reported := reported st |}.

Definition onVariableDeclarator (n : Node) (st : State) : State :=
  match n with
  | VariableDeclarator (Identifier name _ as id) (Some init) =>
      match isRedirectObject (trackedVariables st) init with
      | Some objectType =>
          {| trackedVariables :=
               <[name := {| node := id;
                            isLocation := RedirectObject_eqb objectType ObjLocation;
                            isNavigation := RedirectObject_eqb objectType ObjNavigation;
                            isWindow := RedirectObject_eqb objectType ObjWindow |}]>
                 (trackedVariables st);
             withStack := withStack st;
             reported := reported st |}
      | None => st
      end
  | _ => st
  end.

Definition isIdentifier (n : Node) : bool :=
  match n with Identifier _ _ => true | _ => false end.

Definition isSomeSink (sinkType : option SinkType) : bool :=
  match sinkType with Some _ => true | None => false end.

Definition isSink (sinkType : option SinkType) (k : SinkType) : bool :=
  match sinkType with
  | Some k' => String.eqb (sinkTypeName k') (sinkTypeName k)
  | None => false
  end.

(** The block of the assignment handler for a member-expression target. *)
Definition assignToMember
  (unwrappedLeft object property : Node) (computed : bool) (right_ : Node)
  (st : State) : Flow :=
  let sinkType := getRedirectSinkType unwrappedLeft in
  andThen
    (if isSomeSink sinkType && isIdentifier property then
       if isObj (isRedirectObject (trackedVariables st) object) ObjLocation
       then Return (reportUnlessSafe right_ st)
       else Next st
     else Next st)
    (fun st =>
  andThen
    (if isIdentifierNamed property "location" then
       if isObj (isRedirectObject (trackedVariables st) object) ObjWindow
       then Return (reportUnlessSafe right_ st)
       else if isIdentifier object
               && isGlobalIdentifier object (sourceCode context)
       then
         if isIdentifierNamed object "document"
            || isIdentifierNamed object "globalThis"
         then Next (reportUnlessSafe right_ st)
         else Next st
       else Next st
     else Next st)
    (fun st =>
       if computed then
         if isObj (isRedirectObject (trackedVariables st) object) ObjLocation
         then Next (reportUnlessSafe right_ st)
         else Next st
       else Next st)).

(** The block of the assignment handler for a bare identifier target. *)
Definition assignToIdentifier (left_ : Node) (name : string) (right_ : Node)
  (st : State) : Flow :=
  if isObj (isRedirectObject (trackedVariables st) left_) ObjLocation
  then Return (reportUnlessSafe right_ st)
  else
    match getCurrentWithObject st with
    | Some withinObject =>
        andThen
          match getType left_ with
          | Some leftType =>
              let typeName := display leftType in
              if String.eqb typeName "string" || Js.strIncludes typeName "Location"
              then
                if String.eqb name "href" && negb (isValueSafe right_)
                then Return (reportUnsafeRedirect right_ st)
                else Next st
              else Next st
          | None => Next st
          end
          (fun st =>
             if RedirectObject_eqb withinObject ObjLocation && String.eqb name "href"
             then Next (reportUnlessSafe right_ st)
             else Next st)
    | None => Next st
    end.

Definition onAssignmentExpression (n : Node) (st : State) : State :=
  match n with
  | AssignmentExpression _ left_ right_ =>
      let unwrappedLeft := unwrapChainExpression left_ in
      finish
        (andThen
           match unwrappedLeft with
           | MemberExpression object property computed _ =>
               assignToMember unwrappedLeft object property computed right_ st
           | _ => Next st
           end
           (fun st =>
              match left_ with
              | Identifier name _ => assignToIdentifier left_ name right_ st
              | _ => Next st
              end))
  | _ => st
  end.

Definition onCallExpression (n : Node) (st : State) : State :=
  match n with
  | CallExpression callee args =>
      match getOpenCallInfo n with
      | Some openInfo =>
          let isValidOpen :=
            match openInfo with
            | OpenGlobal identifier =>
                isGlobalIdentifier identifier (sourceCode context)
            | OpenMethod object =>
                isObj (isRedirectObject (trackedVariables st) object) ObjWindow
            end in
          if isValidOpen then reportFirstArgUnlessSafe args st else st
      | None =>
          let unwrappedCallee := unwrapChainExpression callee in
          let st1 :=
            match unwrappedCallee with
            | MemberExpression object _ _ _ =>
                let sinkType := getRedirectSinkType unwrappedCallee in
                let st' :=
                  if isSink sinkType SinkReplace || isSink sinkType SinkAssign then
                    if isObj (isRedirectObject (trackedVariables st) object) ObjLocation
                    then reportFirstArgUnlessSafe args st
                    else st
                  else st in
                if isSink sinkType SinkNavigate then
                  if isObj (isRedirectObject (trackedVariables st') object) ObjNavigation
                  then reportFirstArgUnlessSafe args st'
                  else st'
                else st'
            | _ => st
            end in
          match callee with
          | Identifier name _ =>
              if isObj (getCurrentWithObject st1) ObjLocation then
                if String.eqb name "replace" || String.eqb name "assign"
                then reportFirstArgUnlessSafe args st1
                else st1
              else st1
          | _ => st1
          end
      end
  | _ => st
  end.

(** The host's walk over the tree: the handler of a node on entering it,
    then its children in the order of the visitor keys, then its exit
    handler. *)
Fixpoint traverse (n : Node) (st : State) : State :=
  let traverseAll :=
    fix traverseAll (ns : list Node) (st : State) : State :=
      match ns with
      | [] => st
      | c :: rest => traverseAll rest (traverse c st)
      end in
  match n with
  | Identifier _ _ | Literal _ => st
  | TemplateLiteral _ expressions => traverseAll expressions st
  | BinaryExpression _ left_ right_ => traverse right_ (traverse left_ st)
  | MemberExpression object property _ _ => traverse property (traverse object st)
  | CallExpression callee args =>
      traverseAll args (traverse callee (onCallExpression n st))
  | ChainExpression expression => traverse expression st
  | AssignmentExpression _ left_ right_ =>
      traverse right_ (traverse left_ (onAssignmentExpression n st))
  | VariableDeclarator id init =>
      let st := traverse id (onVariableDeclarator n st) in
      match init with
      | Some i => traverse i st
      | None => st
      end
  | WithStatement object body =>
      onWithStatementExit (traverse body (traverse object (onWithStatement n st)))
  | OtherNode _ children => traverseAll children st
  end.

(** The diagnostics of one file. *)
Definition lint (program : Node) : list Diagnostic :=
  reported (traverse program initialState).

End Create.

(** *** How the specification words scope resolution

    Modelled on the specification's data model: an identifier is bound when
    some scope around it, the innermost included, records a definition
    under its name. *)
Fixpoint boundInEnclosingScopes (name : string) (scope : Scope) : bool :=
  match scope with
  | mkScope vars up =>
      match vars !! name with
      | Some variable => negb (length (defs variable) =? 0)%nat
      | None => false
      end
      || match up with
         | Some outer => boundInEnclosingScopes name outer
         | None => false
         end
  end.

(** *** Notions used to state what the rule does *)

(** The types a name test can reach from a type: the type itself and,
    through unions and intersections, their members. *)
Inductive Constituent : TsType -> TsType -> Prop :=
| Constituent_here (t : TsType) : Constituent t t
| Constituent_member (t m c : TsType) :
    isUnion t || isIntersection t = true ->
    In m (types t) ->
    Constituent m c ->
    Constituent t c.

(** The same file without type information. *)
Definition withoutTypes (context : Context) : Context :=
  {| typeAtLocation := None; sourceCode := sourceCode context |}.

(** The shapes of expression that need no type to pass for safe. *)
Inductive SafeShape : Node -> Prop :=
| Safe_string (s : string) : SafeShape (Literal (LitString s))
| Safe_plain_template (quasis : list TemplateElement) :
    SafeShape (TemplateLiteral quasis [])
| Safe_prefixed_template (q : TemplateElement) (rest : list TemplateElement)
    (e : Node) (es : list Node) :
    raw q <> "" -> Js.NotOnlySlashes (raw q) ->
    SafeShape (TemplateLiteral (q :: rest) (e :: es))
| Safe_literal_prefix (left_ right_ : Node) (value : string) :
    descendLeft left_ = Literal (LitString value) ->
    value = "" \/ Js.NotOnlySlashes value ->
    SafeShape (BinaryExpression "+" left_ right_)
| Safe_template_prefix (left_ right_ : Node) (q : TemplateElement)
    (es : list Node) :
    descendLeft left_ = TemplateLiteral [q] es ->
    raw q <> "" -> Js.NotOnlySlashes (raw q) ->
    SafeShape (BinaryExpression "+" left_ right_)
| Safe_validator_call (rng : Range) (args : list Node) :
    SafeShape (CallExpression (Identifier "ensureTrustedUrl" rng) args).

(** [first + o1 + o2 + ...]: the left-associative chain of [+]. *)
Definition plusChain (first : Node) (others : list Node) : Node :=
  fold_left (fun chain operand => BinaryExpression "+" chain operand)
    others first.

Definition RedirectObject_name (k : RedirectObject) : string :=
  match k with
  | ObjLocation => "location"
  | ObjNavigation => "navigation"
  | ObjWindow => "window"
  end.

(** A diagnostic of the rule's one kind, on a value the classifier does
    not pass. *)
Definition Unsafe (context : Context) (d : Diagnostic) : Prop :=
  isValueSafe context (at_node d) = false /\ messageId d = "unsafeRedirect".

(** [st'] is [st] some handlers later: the same with-stack, no alias
    dropped, diagnostics appended. *)
Definition Follows (context : Context) (st st' : State) : Prop :=
  withStack st' = withStack st
  /\ (forall name, is_Some (trackedVariables st !! name) ->
                   is_Some (trackedVariables st' !! name))
  /\ exists added, reported st' = (reported st ++ added)%list
                   /\ Forall (Unsafe context) added.

(** The walk over a list of children. *)
Definition traverseAll (context : Context) (ns : list Node) (st : State) : State :=
  fold_left (fun st c => traverse context c st) ns st.

(** *** Concrete files for the examples *)

Definition globalScope : Scope := mkScope ∅ None.

(** No type information, every identifier at top level of a script. *)
Definition untyped : Context :=
  {| typeAtLocation := None;
     sourceCode := {| getScope := fun _ => globalScope |} |}.

(** [window.window. ... .window], with [n] links after the first name. *)
Fixpoint windowChain (n : nat) : Node :=
  match n with
  | O => Identifier "window" (0, 6)
  | S k => MemberExpression (windowChain k)
             (Identifier "window" (7 * n, 7 * n + 6)) false false
  end.

Definition windowChainLocation (n : nat) : Node :=
  MemberExpression (windowChain n)
    (Identifier "location" (7 * n + 7, 7 * n + 15)) false false.

Definition WindowType : TsType :=
  {| symbolName := None;
     flavour := IntersectionType;
     types := [ {| symbolName := Some "Window"; flavour := PlainType;
                   types := []; properties := []; display := "Window" |};
                {| symbolName := Some "globalThis"; flavour := PlainType;
                   types := []; properties := [];
                   display := "typeof globalThis" |} ];
     properties := [];
     display := "Window & typeof globalThis" |}.

Definition StringType : TsType :=
  {| symbolName := None; flavour := PlainType; types := [];
     properties := []; display := "string" |}.

(** Type information that types [window] and every [X.window] as the
    window object, [href] as a string, and answers nothing elsewhere. *)
Definition typedWindows : Context :=
  {| typeAtLocation :=
       Some (fun n =>
               match n with
               | Identifier name _ =>
                   if String.eqb name "window" then Some WindowType
                   else if String.eqb name "href" then Some StringType
                   else None
               | MemberExpression _ property _ _ =>
                   if isIdentifierNamed property "window" then Some WindowType
                   else None
               | _ => None
               end);
     sourceCode := {| getScope := fun _ => globalScope |} |}.

Definition LocationType : TsType :=
  {| symbolName := Some "Location"; flavour := PlainType; types := [];
     properties := []; display := "Location" |}.

(** [function f(w: Window & { navigation: Location }) { w.navigation ... }]:
    [w] is typed as the window object and [w.navigation] as a location. *)
Definition typedParameter : Context :=
  {| typeAtLocation :=
       Some (fun n =>
               match n with
               | Identifier name _ =>
                   if String.eqb name "w" then Some WindowType else None
               | MemberExpression object property _ _ =>
                   if isIdentifierNamed object "w"
                      && isIdentifierNamed property "navigation"
                   then Some LocationType
                   else None
               | _ => None
               end);
     sourceCode :=
       {| getScope := fun _ =>
            mkScope {[ "w" := {| defs := [DefParameter] |} ]}
              (Some (mkScope ∅ None)) |} |}.

Definition someVariable : Node := Identifier "someVariable" (100, 112).

(** [string & { readonly __brand: "TrustedUrl" }] *)
Definition TrustedUrlType : TsType :=
  {| symbolName := None;
     flavour := IntersectionType;
     types := [StringType];
     properties :=
       [("__brand",
         {| symbolName := None; flavour := StringLiteralType "TrustedUrl";
            types := []; properties := []; display := "TrustedUrl" |})];
     display := "TrustedUrl<string>" |}.

(** [const safeVar = ensureTrustedUrl(someVariable);] and, later, a use of
    [safeVar]. *)
Definition typedSafeVar : Context :=
  {| typeAtLocation :=
       Some (fun n => if isIdentifierNamed n "safeVar"
                      then Some TrustedUrlType else None);
     sourceCode := {| getScope := fun _ => globalScope |} |}.

(** [function f() { var location = window.location;
                    location.href = someVariable; }] *)
Definition functionScope : Scope :=
  mkScope {[ "location" := {| defs := [DefVariable] |} ]}
    (Some (mkScope {[ "f" := {| defs := [DefFunctionName] |} ]} None)).

Definition insideFunction : Context :=
  {| typeAtLocation := None;
     sourceCode := {| getScope := fun _ => functionScope |} |}.

Definition localLocation : Node := Identifier "location" (47, 55).

Definition aliasedLocal : Node :=
  OtherNode "FunctionDeclaration"
    [ Identifier "f" (9, 10);
      OtherNode "BlockStatement"
        [ OtherNode "VariableDeclaration"
            [ VariableDeclarator (Identifier "location" (20, 28))
                (Some (MemberExpression (Identifier "window" (31, 37))
                         (Identifier "location" (38, 46)) false false)) ];
          OtherNode "ExpressionStatement"
            [ AssignmentExpression "="
                (MemberExpression localLocation
                   (Identifier "href" (56, 60)) false false)
                someVariable ] ] ].

(** [function g(location) { if (c) { location.href = someVariable; } }]:
    the assignment sits in the block scope of the [if], the parameter in
    the function scope around it. *)
Definition parameterScope : Scope :=
  mkScope {[ "location" := {| defs := [DefParameter] |} ]} (Some globalScope).

Definition blockScope : Scope := mkScope ∅ (Some parameterScope).

Definition insideBlock : Context :=
  {| typeAtLocation := None;
     sourceCode := {| getScope := fun _ => blockScope |} |}.

(** [function h(location) { location.href = someVariable; }] *)
Definition insideParameterScope : Context :=
  {| typeAtLocation := None;
     sourceCode := {| getScope := fun _ => parameterScope |} |}.

(** [location.href = "" + someVariable;] *)
Definition emptyPrefixRedirect : Node :=
  OtherNode "Program"
    [ OtherNode "ExpressionStatement"
        [ AssignmentExpression "="
            (MemberExpression (Identifier "location" (0, 8))
               (Identifier "href" (9, 13)) false false)
            (BinaryExpression "+" (Literal (LitString "")) someVariable) ] ].

(** The state inside [with (window) { ... }]. *)
Definition insideWithWindow : State :=
  {| trackedVariables := ∅; withStack := [Some ObjWindow]; reported := [] |}.

End Rule.

(** * Theorems *)

(** ** The runtime validator *)

Section RuntimeFacts.

Import Runtime.

Variable newURL : string -> option string -> URL + string.

(** What a run on a non-empty string comes to: the context is handed back
    as it was, and the checks fire in the order of the source. *)
Lemma ensureTrustedUrl_run (s : string) (options : EnsureTrustedUrlOptions)
  (w : Ambient) :
  Js.nonEmpty s = true ->
  ensureTrustedUrl newURL (JsString s) options w =
  (w,
   match newURL s (currentOriginOf (window w)) with
   | inr reason => inl (InvalidURL s reason)
   | inl u =>
       if negb (Js.includes (effectiveAllowedProtocols options) (protocol u))
       then inl (UnsafeURLProtocol (protocol u))
       else if negb (Js.includes (effectiveAllowedOrigins (window w) options) (origin u))
               && negb (effectiveAllowCrossOrigin options)
       then inl (CrossOriginNotAllowed (origin u))
       else if Js.startsWith (Js.stripNonLowerColon (Js.toLowerCase s)) "javascript:"
       then inl (DangerousProtocolDetected s)
       else inr (JsString s)
   end).
Proof.
  intros Hs.
  unfold ensureTrustedUrl, bind, readWindow, throwIf, throw, ret,
    effectiveAllowedProtocols, effectiveAllowedOrigins, effectiveAllowCrossOrigin.
  cbn [truthy typeof]. rewrite Hs. cbn [negb orb String.eqb Ascii.eqb Bool.eqb].
  change (negb (String.eqb "string" "string")) with false. cbn [orb].
  destruct (newURL s (currentOriginOf (window w))) as [u|reason]; [|reflexivity].
  destruct (Js.includes _ (protocol u)); cbn [negb]; [|reflexivity].
  destruct (Js.includes _ (origin u)); cbn [negb andb].
  - destruct (Js.startsWith _ _); reflexivity.
  - destruct (default false (allowCrossOrigin options)); cbn [negb].
    + destruct (Js.startsWith _ _); reflexivity.
    + reflexivity.
Qed.

(** Anything that is not a non-empty string is refused at the first check. *)
Lemma ensureTrustedUrl_invalid_input (url : JsValue)
  (options : EnsureTrustedUrlOptions) (w : Ambient) :
  (negb (truthy url) || negb (String.eqb (typeof url) "string")) = true ->
  ensureTrustedUrl newURL url options w = (w, inl NotANonEmptyString).
Proof.
  intros H. unfold ensureTrustedUrl, bind, readWindow, throwIf, throw.
  rewrite H. reflexivity.
Qed.

Lemma input_check_cases (url : JsValue) :
  (negb (truthy url) || negb (String.eqb (typeof url) "string")) = true
  \/ exists s, url = JsString s /\ Js.nonEmpty s = true.
Proof.
  destruct url as [| |b|n|s|props]; try (left; cbn; now rewrite ?orb_true_r).
  destruct s as [|c s]; [left; reflexivity|right]. eexists; split; reflexivity.
Qed.

(** The validator never writes to the ambient context. *)
Lemma ensureTrustedUrl_context_unchanged (url : JsValue)
  (options : EnsureTrustedUrlOptions) (w : Ambient) :
  fst (ensureTrustedUrl newURL url options w) = w.
Proof.
  destruct (input_check_cases url) as [H|(s & -> & Hs)].
  - now rewrite ensureTrustedUrl_invalid_input.
  - now rewrite ensureTrustedUrl_run.
Qed.

(** A value that comes back is the argument itself. *)
Lemma ensureTrustedUrl_returns_argument (url v : JsValue)
  (options : EnsureTrustedUrlOptions) (w : Ambient) :
  snd (ensureTrustedUrl newURL url options w) = inr v -> v = url.
Proof.
  destruct (input_check_cases url) as [H|(s & -> & Hs)].
  - rewrite ensureTrustedUrl_invalid_input by exact H. discriminate.
  - rewrite ensureTrustedUrl_run by exact Hs. cbn [snd].
    destruct (newURL s _) as [u|r]; [|discriminate].
    repeat match goal with |- context [if ?b then _ else _] => destruct b end;
      congruence.
Qed.

End RuntimeFacts.

Section RuntimeClaims.

Import Runtime.

(** C2, as amended.  Once the input, parsing and protocol checks have
    passed, the validator raises CrossOriginDenied exactly when
    [allowCrossOrigin] is false and the parsed origin is missing from the
    list in force: the caller's [allowedOrigins] when given, otherwise the
    list holding the current origin alone.  In particular a caller's list
    [l] that lacks the parsed origin gets the URL rejected, whether or not
    that origin is the current one. *)
Theorem crossOriginDenied_iff_not_in_effective_list
  (newURL : string -> option string -> URL + string)
  (s : string) (options : EnsureTrustedUrlOptions) (w : Ambient) (u : URL) :
  passesProtocolCheck newURL (window w) s options u ->
  ((exists e, snd (ensureTrustedUrl newURL (JsString s) options w) = inl e
              /\ errorKind e = CrossOriginDenied)
   <-> effectiveAllowCrossOrigin options = false
       /\ Js.includes (effectiveAllowedOrigins (window w) options) (origin u) = false)
  /\ (forall l, allowedOrigins options = Some l ->
        Js.includes l (origin u) = false ->
        effectiveAllowCrossOrigin options = false ->
        snd (ensureTrustedUrl newURL (JsString s) options w)
        = inl (CrossOriginNotAllowed (origin u))).
Proof.
  intros (Hs & Hparse & Hproto).
  rewrite (ensureTrustedUrl_run newURL s options w Hs), Hparse, Hproto.
  cbn [negb snd]. split.
  - destruct (Js.includes (effectiveAllowedOrigins _ _) (origin u)) eqn:Hin;
      destruct (effectiveAllowCrossOrigin options) eqn:Hx; cbn [negb andb].
    + split; [|intros [? ?]; discriminate].
      intros (e & He & Hk).
      destruct (Js.startsWith _ _); inversion He; subst e; discriminate.
    + split; [|intros [? ?]; discriminate].
      intros (e & He & Hk).
      destruct (Js.startsWith _ _); inversion He; subst e; discriminate.
    + split; [|intros [? ?]; discriminate].
      intros (e & He & Hk).
      destruct (Js.startsWith _ _); inversion He; subst e; discriminate.
    + split; [intros _; split; reflexivity|].
      intros _. eexists; split; reflexivity.
  - intros l Hl Hin Hx. unfold effectiveAllowedOrigins.
    rewrite Hl. cbn [from_option id]. rewrite Hin, Hx. reflexivity.
Qed.

Lemma crossOriginDenied_iff_witness :
  passesProtocolCheck sampleNewURL (window exampleWindow) "/dashboard"
    trustedOnly sameOriginURL
  /\ snd (ensureTrustedUrl sampleNewURL (JsString "/dashboard") trustedOnly
            exampleWindow)
     = inl (CrossOriginNotAllowed "https://example.com").
Proof.
  assert (H : passesProtocolCheck sampleNewURL (window exampleWindow)
                "/dashboard" trustedOnly sameOriginURL)
    by (repeat split; vm_compute; reflexivity).
  split; [exact H|].
  exact (proj2 (crossOriginDenied_iff_not_in_effective_list sampleNewURL
                  "/dashboard" trustedOnly exampleWindow sameOriginURL H)
           ["https://trusted.com"] eq_refl eq_refl eq_refl).
Defined.

(** C2, as the specification words it, fails: with
    [allowedOrigins: ["https://trusted.com"]] and the page at
    [https://example.com], the same-origin [/dashboard] passes the first
    checks, its origin is the current one, and it is still refused. *)
Lemma explicit_allowedOrigins_refuses_current_origin :
  passesProtocolCheck sampleNewURL (window exampleWindow) "/dashboard"
    trustedOnly sameOriginURL
  /\ currentOriginOf (window exampleWindow) = Some (origin sameOriginURL)
  /\ specCrossOriginDenied (window exampleWindow) trustedOnly sameOriginURL = false
  /\ snd (ensureTrustedUrl sampleNewURL (JsString "/dashboard") trustedOnly
            exampleWindow)
     = inl (CrossOriginNotAllowed "https://example.com").
Proof. repeat split; vm_compute; reflexivity. Qed.

(** C3, as amended.  Once steps 1 to 5 have passed, the validator raises
    UnsafeProtocol exactly when the residue of the lower-cased input, all
    characters but [a-z] and the colon stripped, starts with
    [javascript:]; otherwise it returns the input. *)
Theorem dangerous_protocol_iff_lowercased_residue
  (newURL : string -> option string -> URL + string)
  (s : string) (options : EnsureTrustedUrlOptions) (w : Ambient) (u : URL) :
  passesOriginCheck newURL (window w) s options u ->
  ((exists e, snd (ensureTrustedUrl newURL (JsString s) options w) = inl e
              /\ errorKind e = UnsafeProtocol)
   <-> Js.startsWith (Js.stripNonLowerColon (Js.toLowerCase s)) "javascript:" = true)
  /\ snd (ensureTrustedUrl newURL (JsString s) options w)
     = if Js.startsWith (Js.stripNonLowerColon (Js.toLowerCase s)) "javascript:"
       then inl (DangerousProtocolDetected s)
       else inr (JsString s).
Proof.
  intros ((Hs & Hparse & Hproto) & Horigin).
  rewrite (ensureTrustedUrl_run newURL s options w Hs), Hparse, Hproto.
  cbn [negb snd].
  replace (negb (Js.includes (effectiveAllowedOrigins (window w) options) (origin u))
           && negb (effectiveAllowCrossOrigin options)) with false
    by (rewrite <- negb_orb, Horigin; reflexivity).
  split; [|reflexivity].
  destruct (Js.startsWith _ _).
  - split; [reflexivity|]. intros _. eexists; split; reflexivity.
  - split; [|discriminate]. intros (e & He & _). discriminate.
Qed.

Lemma dangerous_protocol_iff_witness :
  passesOriginCheck sampleNewURL (window exampleWindow) "/Javascript:foo"
    noOptions sameOriginURL
  /\ snd (ensureTrustedUrl sampleNewURL (JsString "/Javascript:foo") noOptions
            exampleWindow)
     = inl (DangerousProtocolDetected "/Javascript:foo").
Proof.
  assert (H : passesOriginCheck sampleNewURL (window exampleWindow)
                "/Javascript:foo" noOptions sameOriginURL)
    by (repeat split; vm_compute; reflexivity).
  split; [exact H|].
  exact (proj2 (dangerous_protocol_iff_lowercased_residue sampleNewURL
                  "/Javascript:foo" noOptions exampleWindow sameOriginURL H)).
Defined.

(** C3, as the specification words it, fails: the residue of the raw
    [/Javascript:foo] is [avascript:foo], which does not start with
    [javascript:], yet the validator lower-cases first and raises. *)
Lemma raw_residue_misses_uppercase :
  passesOriginCheck sampleNewURL (window exampleWindow) "/Javascript:foo"
    noOptions sameOriginURL
  /\ specResidue "/Javascript:foo" = "avascript:foo"
  /\ Js.startsWith (specResidue "/Javascript:foo") "javascript:" = false
  /\ snd (ensureTrustedUrl sampleNewURL (JsString "/Javascript:foo") noOptions
            exampleWindow)
     = inl (DangerousProtocolDetected "/Javascript:foo")
  /\ errorKind (DangerousProtocolDetected "/Javascript:foo") = UnsafeProtocol.
Proof. repeat split; vm_compute; reflexivity. Qed.

(** C6.  With the default [allowedProtocols], [javascript:alert(1)], which
    the platform parses to protocol [javascript:], raises UnsafeProtocol
    whatever [allowCrossOrigin] and [allowedOrigins] are; and for every
    input that parses, a protocol outside [allowedProtocols] raises
    UnsafeProtocol whatever the origin check would say. *)
Theorem protocol_check_precedes_origin_check
  (newURL : string -> option string -> URL + string) (w : Ambient) :
  (forall (crossOrigin : option bool) (origins : option (list string)) (u : URL),
     newURL "javascript:alert(1)" (currentOriginOf (window w)) = inl u ->
     protocol u = "javascript:" ->
     exists e,
       snd (ensureTrustedUrl newURL (JsString "javascript:alert(1)")
              {| allowCrossOrigin := crossOrigin;
                 allowedProtocols := None;
                 allowedOrigins := origins |} w) = inl e
       /\ e = UnsafeURLProtocol "javascript:"
       /\ errorKind e = UnsafeProtocol)
  /\ (forall (s : string) (options : EnsureTrustedUrlOptions) (u : URL),
        Js.nonEmpty s = true ->
        newURL s (currentOriginOf (window w)) = inl u ->
        Js.includes (effectiveAllowedProtocols options) (protocol u) = false ->
        snd (ensureTrustedUrl newURL (JsString s) options w)
        = inl (UnsafeURLProtocol (protocol u))
        /\ errorKind (UnsafeURLProtocol (protocol u)) = UnsafeProtocol).
Proof.
  split.
  - intros crossOrigin origins u Hparse Hp.
    rewrite ensureTrustedUrl_run by reflexivity.
    rewrite Hparse, Hp. eexists; repeat split.
  - intros s options u Hs Hparse Hproto.
    rewrite ensureTrustedUrl_run by exact Hs.
    rewrite Hparse, Hproto. split; reflexivity.
Qed.

Lemma protocol_check_precedes_witness :
  sampleNewURL "javascript:alert(1)" (currentOriginOf (window exampleWindow))
  = inl {| protocol := "javascript:"; origin := "null" |}
  /\ exists e,
       snd (ensureTrustedUrl sampleNewURL (JsString "javascript:alert(1)")
              {| allowCrossOrigin := Some true;
                 allowedProtocols := None;
                 allowedOrigins := None |} exampleWindow) = inl e
       /\ e = UnsafeURLProtocol "javascript:"
       /\ errorKind e = UnsafeProtocol.
Proof.
  split; [reflexivity|].
  exact (proj1 (protocol_check_precedes_origin_check sampleNewURL exampleWindow)
           (Some true) None {| protocol := "javascript:"; origin := "null" |}
           eq_refl eq_refl).
Defined.

(** C8.  A run hands the ambient context back unchanged, whether it
    returns or throws; a run that returns, returns its [url] argument
    itself, not the parsed URL. *)
Theorem ensureTrustedUrl_returns_input_unchanged
  (newURL : string -> option string -> URL + string)
  (url : JsValue) (options : EnsureTrustedUrlOptions) (w : Ambient) :
  fst (ensureTrustedUrl newURL url options w) = w
  /\ forall v, snd (ensureTrustedUrl newURL url options w) = inr v -> v = url.
Proof.
  split.
  - apply ensureTrustedUrl_context_unchanged.
  - intros v. apply ensureTrustedUrl_returns_argument.
Qed.

Lemma ensureTrustedUrl_returns_input_witness :
  snd (ensureTrustedUrl sampleNewURL (JsString "/dashboard") noOptions exampleWindow)
  = inr (JsString "/dashboard")
  /\ JsString "/dashboard" = JsString "/dashboard"
  /\ fst (ensureTrustedUrl sampleNewURL (JsString "/dashboard") noOptions
            exampleWindow) = exampleWindow.
Proof.
  assert (H : snd (ensureTrustedUrl sampleNewURL (JsString "/dashboard")
                     noOptions exampleWindow) = inr (JsString "/dashboard"))
    by (vm_compute; reflexivity).
  split; [exact H|]. split.
  - exact (proj2 (ensureTrustedUrl_returns_input_unchanged sampleNewURL
                    (JsString "/dashboard") noOptions exampleWindow) _ H).
  - exact (proj1 (ensureTrustedUrl_returns_input_unchanged sampleNewURL
                    (JsString "/dashboard") noOptions exampleWindow)).
Defined.

End RuntimeClaims.

(** ** The pattern [/^[/\\]+$/] *)

Section SlashFacts.

Lemma isSlash_true_iff (c : ascii) :
  Js.isSlash c = true <-> c = "/"%char \/ c = "\"%char.
Proof.
  split.
  - destruct c as [[] [] [] [] [] [] [] []]; vm_compute; intros H;
      try discriminate H; auto.
  - intros [-> | ->]; reflexivity.
Qed.

Lemma allSlashes_false_iff (s : string) :
  Js.allSlashes s = false <-> Js.NotOnlySlashes s.
Proof.
  unfold Js.NotOnlySlashes. induction s as [|c s IH]; cbn.
  - split; [discriminate|]. intros (c & [] & _).
  - rewrite andb_false_iff, IH. split.
    + intros [Hc | (c' & Hin & Hne)].
      * exists c. split; [now left|].
        split; intros ->; discriminate Hc.
      * exists c'. split; [now right|exact Hne].
    + intros (c' & [<- | Hin] & Hne1 & Hne2).
      * left. destruct (Js.isSlash c) eqn:E; [|reflexivity].
        apply isSlash_true_iff in E as [E | E]; contradiction.
      * right. exists c'. auto.
Qed.

(** What the two tests of the classifier on a piece of text come to:
    [text.length > 0] and not [/^[/\\]+$/.test(text)]. *)
Lemma nonEmpty_not_slashOnly_iff (s : string) :
  (if Js.nonEmpty s then if Js.slashOnly s then false else true else false) = true
  <-> s <> "" /\ Js.NotOnlySlashes s.
Proof.
  destruct s as [|c s].
  - cbn. split; [discriminate|]. intros [H _]. now contradiction H.
  - change (Js.nonEmpty (String c s)) with true.
    change (Js.slashOnly (String c s)) with (Js.allSlashes (String c s)).
    rewrite <- allSlashes_false_iff.
    destruct (Js.allSlashes (String c s)); split.
    + discriminate.
    + intros [_ H]; discriminate H.
    + intros _. split; [discriminate|reflexivity].
    + reflexivity.
Qed.

(** The pattern alone lets the empty text through. *)
Lemma not_slashOnly_iff (s : string) :
  (if Js.slashOnly s then false else true) = true
  <-> s = "" \/ Js.NotOnlySlashes s.
Proof.
  destruct s as [|c s].
  - cbn. split; auto.
  - change (Js.slashOnly (String c s)) with (Js.allSlashes (String c s)).
    rewrite <- allSlashes_false_iff.
    destruct (Js.allSlashes (String c s)); split.
    + discriminate.
    + intros [H | H]; discriminate H.
    + intros _. now right.
    + reflexivity.
Qed.

End SlashFacts.

(** ** The safety classifier *)

Section ClassifierClaims.

Import Rule.

Variable context : Context.

(** What the classifier answers on a [+] expression: only the leftmost
    operand counts. *)
Lemma isValueSafe_plus (left_ right_ : Node) :
  isValueSafe context (BinaryExpression "+" left_ right_) = true
  <-> (exists value, descendLeft left_ = Literal (LitString value)
                     /\ (value = "" \/ Js.NotOnlySlashes value))
      \/ (exists quasi expressions,
            descendLeft left_ = TemplateLiteral [quasi] expressions
            /\ raw quasi <> "" /\ Js.NotOnlySlashes (raw quasi)).
Proof.
  unfold isValueSafe. cbn [isSafeLiteral].
  change (String.eqb "+" "+") with true. cbv iota.
  destruct (descendLeft left_) as
    [name rng|[value|?|?| |?|?]|quasis es|?|?|?|?|?|?|?|?];
    try (split; [discriminate|];
         intros [(v & H & _)|(q & es' & H & _)]; discriminate H).
  - rewrite not_slashOnly_iff. split.
    + intros H. left. eauto.
    + intros [(v & [= <-] & H)|(q & es' & H & _)]; [exact H|discriminate H].
  - destruct quasis as [|quasi [|? ?]];
      try (split; [discriminate|];
           intros [(v & H & _)|(q & es' & H & _)]; discriminate H).
    rewrite nonEmpty_not_slashOnly_iff. split.
    + intros H. right. eauto.
    + intros [(v & H & _)|(q & es' & [= <- <-] & H)]; [discriminate H|exact H].
Qed.

(** C1.  The classifier answers safe for [+] with the empty string
    literal leftmost, where the claim asks for unsafe; the same [+] with
    the empty template leftmost it answers unsafe, and the redirect
    [location.href = "" + someVariable] draws no diagnostic. *)
Theorem empty_leftmost_literal_classified_safe (right_ : Node) :
  isValueSafe context (BinaryExpression "+" (Literal (LitString "")) right_) = true
  /\ isValueSafe context
       (BinaryExpression "+"
          (TemplateLiteral [{| raw := ""; cooked := Some "" |}] []) right_) = false
  /\ lint untyped emptyPrefixRedirect = [].
Proof. repeat split. Qed.

(** C5.  A template literal with at least one interpolation is safe
    exactly when it has a first segment whose text is not empty and not
    made of slashes and backslashes only; with an empty first segment it
    is unsafe. *)
Theorem interpolated_template_safe_iff
  (quasis : list TemplateElement) (e : Node) (es : list Node) :
  (isValueSafe context (TemplateLiteral quasis (e :: es)) = true
   <-> exists firstQuasi rest,
         quasis = firstQuasi :: rest
         /\ raw firstQuasi <> "" /\ Js.NotOnlySlashes (raw firstQuasi))
  /\ (forall (c : option string) (rest : list TemplateElement),
        isValueSafe context
          (TemplateLiteral ({| raw := ""; cooked := c |} :: rest) (e :: es)) = false).
Proof.
  split; [|reflexivity].
  unfold isValueSafe. cbn [isSafeLiteral]. cbv iota.
  destruct quasis as [|firstQuasi rest]; cbn [lookup list_lookup].
  - split; [discriminate|]. intros (q & r & H & _). discriminate H.
  - rewrite nonEmpty_not_slashOnly_iff. split.
    + intros H. exists firstQuasi, rest. split; [reflexivity|exact H].
    + intros (q & r & [= <- <-] & H). exact H.
Qed.

End ClassifierClaims.

(** ** The redirect-object resolver *)

Section ResolverFacts.

Import Rule.

Variable context : Context.
Variable tracked : gmap string VariableInfo.

Lemma isRedirectObject_member (object property : Node) (computed optional : bool) :
  isRedirectObject context tracked
    (MemberExpression object property computed optional)
  = orElse (redirectObjectByType context
              (MemberExpression object property computed optional))
      (orElse (redirectObjectOfGlobalMember context object property)
         (redirectObjectOfWindowMember
            (isRedirectObject context tracked object) property)).
Proof. reflexivity. Qed.

Lemma isRedirectObject_identifier (name : string) (rng : Range) :
  isRedirectObject context tracked (Identifier name rng)
  = orElse (redirectObjectByType context (Identifier name rng))
      (orElse
         match tracked !! name with
         | Some varInfo => redirectObjectOfVarInfo varInfo
         | None => None
         end
         (if isGlobalIdentifier (Identifier name rng) (sourceCode context)
          then redirectObjectOfGlobalName name
          else None)).
Proof. reflexivity. Qed.

(** With no type information the type block answers nothing. *)
Lemma redirectObjectByType_untyped (n : Node) :
  typeAtLocation context = None -> redirectObjectByType context n = None.
Proof. intros H. unfold redirectObjectByType, getType. now rewrite H. Qed.

(** The type block has the first word. *)
Lemma isRedirectObject_by_type (n : Node) (k : RedirectObject) :
  redirectObjectByType context n = Some k ->
  isRedirectObject context tracked n = Some k.
Proof. intros H. destruct n; cbn [isRedirectObject]; now rewrite H. Qed.

(** The test on two identifiers answers [location] or nothing for a
    property named [location], and [navigation] or nothing for one named
    [navigation]. *)
Lemma globalMember_location (object : Node) (rng : Range) :
  redirectObjectOfGlobalMember context object (Identifier "location" rng)
  = None
  \/ redirectObjectOfGlobalMember context object (Identifier "location" rng)
     = Some ObjLocation.
Proof.
  destruct object as [name r| | | | | | | | | |]; cbn -[isGlobalIdentifier]; auto.
  destruct (isGlobalIdentifier _ _), (String.eqb name "window"),
    (String.eqb name "document"), (String.eqb name "globalThis"); cbn; auto.
Qed.

Lemma globalMember_navigation (object : Node) (rng : Range) :
  redirectObjectOfGlobalMember context object (Identifier "navigation" rng)
  = None
  \/ redirectObjectOfGlobalMember context object (Identifier "navigation" rng)
     = Some ObjNavigation.
Proof.
  destruct object as [name r| | | | | | | | | |]; cbn -[isGlobalIdentifier]; auto.
  destruct (isGlobalIdentifier _ _), (String.eqb name "window"); cbn; auto.
Qed.

(** Step 3c: a member of something that resolves to [window]. *)
Lemma member_of_window (object : Node) (rng : Range) (computed optional : bool) :
  isRedirectObject context tracked object = Some ObjWindow ->
  (redirectObjectByType context
     (MemberExpression object (Identifier "location" rng) computed optional) = None
   \/ redirectObjectByType context
        (MemberExpression object (Identifier "location" rng) computed optional)
      = Some ObjLocation ->
   isRedirectObject context tracked
     (MemberExpression object (Identifier "location" rng) computed optional)
   = Some ObjLocation)
  /\ (redirectObjectByType context
        (MemberExpression object (Identifier "navigation" rng) computed optional)
      = None
      \/ redirectObjectByType context
           (MemberExpression object (Identifier "navigation" rng) computed optional)
         = Some ObjNavigation ->
      isRedirectObject context tracked
        (MemberExpression object (Identifier "navigation" rng) computed optional)
      = Some ObjNavigation).
Proof.
  intros Hw. split; intros [Ht | Ht]; rewrite isRedirectObject_member, Ht;
    try reflexivity; rewrite Hw; cbn [orElse].
  - destruct (globalMember_location object rng) as [-> | ->]; reflexivity.
  - destruct (globalMember_navigation object rng) as [-> | ->]; reflexivity.
Qed.

(** The lexical rules know no property named [window]. *)
Lemma window_link_unresolved_untyped (object : Node) (rng : Range)
  (computed optional : bool) :
  typeAtLocation context = None ->
  isRedirectObject context tracked
    (MemberExpression object (Identifier "window" rng) computed optional) = None.
Proof.
  intros Hu. rewrite isRedirectObject_member, redirectObjectByType_untyped by exact Hu.
  cbn [orElse].
  replace (redirectObjectOfGlobalMember context object (Identifier "window" rng))
    with (@None RedirectObject).
  - cbn. destruct (isObj _ _); reflexivity.
  - destruct object as [name r| | | | | | | | | |];
      cbn -[isGlobalIdentifier]; try reflexivity.
    destruct (isGlobalIdentifier _ _), (String.eqb name "window"); reflexivity.
Qed.

End ResolverFacts.

Section ResolverClaims.

Import Rule.

(** C7, as amended.  For a member expression [A.B] to which the type
    block itself gives no answer (or the expected one), where [A] resolves
    to [window] and [B] is the identifier [location] (respectively
    [navigation]), the resolver answers [location] (respectively
    [navigation]).  So [window.window. ... .window.location] resolves to
    [location] whenever the type information types its object
    [window. ... .window] as the window object; with no type information
    it resolves to [location] for the global [window.location] alone, and
    to nothing once there is a [.window] link. *)
Theorem member_of_window_resolves
  (context : Context) (tracked : gmap string VariableInfo) :
  (forall (object : Node) (rng : Range) (computed optional : bool),
     isRedirectObject context tracked object = Some ObjWindow ->
     (redirectObjectByType context
        (MemberExpression object (Identifier "location" rng) computed optional)
      = None
      \/ redirectObjectByType context
           (MemberExpression object (Identifier "location" rng) computed optional)
         = Some ObjLocation ->
      isRedirectObject context tracked
        (MemberExpression object (Identifier "location" rng) computed optional)
      = Some ObjLocation)
     /\ (redirectObjectByType context
           (MemberExpression object (Identifier "navigation" rng) computed optional)
         = None
         \/ redirectObjectByType context
              (MemberExpression object (Identifier "navigation" rng) computed
                 optional)
            = Some ObjNavigation ->
         isRedirectObject context tracked
           (MemberExpression object (Identifier "navigation" rng) computed optional)
         = Some ObjNavigation))
  /\ (forall n : nat,
        redirectObjectByType context (windowChain n) = Some ObjWindow ->
        redirectObjectByType context (windowChainLocation n) = None
        \/ redirectObjectByType context (windowChainLocation n) = Some ObjLocation ->
        isRedirectObject context tracked (windowChainLocation n) = Some ObjLocation)
  /\ (typeAtLocation context = None ->
      (isGlobalIdentifier (windowChain 0) (sourceCode context) = true ->
       isRedirectObject context tracked (windowChainLocation 0) = Some ObjLocation)
      /\ forall n : nat,
           isRedirectObject context tracked (windowChainLocation (S n)) = None).
Proof.
  split; [|split].
  - intros object rng computed optional Hw.
    exact (member_of_window context tracked object rng computed optional Hw).
  - intros n Hn Ht.
    apply (member_of_window context tracked (windowChain n)); [|exact Ht].
    now apply isRedirectObject_by_type.
  - intros Hu. split.
    + intros Hg. unfold windowChainLocation.
      rewrite isRedirectObject_member, redirectObjectByType_untyped by exact Hu.
      cbn [orElse]. unfold redirectObjectOfGlobalMember.
      cbn [windowChain] in Hg |- *. rewrite Hg. reflexivity.
    + intros n. unfold windowChainLocation.
      rewrite isRedirectObject_member, redirectObjectByType_untyped by exact Hu.
      cbn [orElse windowChain].
      rewrite window_link_unresolved_untyped by exact Hu. reflexivity.
Qed.

Lemma member_of_window_resolves_witness :
  redirectObjectByType typedWindows (windowChain 2) = Some ObjWindow
  /\ redirectObjectByType typedWindows (windowChainLocation 2) = None
  /\ isRedirectObject typedWindows ∅ (windowChainLocation 2) = Some ObjLocation.
Proof.
  split; [reflexivity|]. split; [reflexivity|].
  exact (proj1 (proj2 (member_of_window_resolves typedWindows ∅)) 2%nat
           eq_refl (or_introl eq_refl)).
Defined.

(** C7, as the specification words it, fails: with no type information,
    [window] resolves to the window object, [window.location] to
    [location], and [window.window.location] to nothing, so that
    [window.window.location = someVariable] draws no diagnostic. *)
Lemma window_window_location_unresolved :
  isRedirectObject untyped ∅ (windowChain 0) = Some ObjWindow
  /\ isRedirectObject untyped ∅ (windowChainLocation 0) = Some ObjLocation
  /\ isRedirectObject untyped ∅ (windowChainLocation 1) = None
  /\ lint untyped
       (OtherNode "ExpressionStatement"
          [AssignmentExpression "=" (windowChainLocation 1) someVariable]) = [].
Proof. repeat split; vm_compute; reflexivity. Qed.

(** The type block comes first: where [w] is typed as the window object
    and [w.navigation] as a location, [w.navigation] resolves to
    [location]. *)
Lemma type_block_has_priority :
  isRedirectObject typedParameter ∅ (Identifier "w" (50, 51)) = Some ObjWindow
  /\ isRedirectObject typedParameter ∅
       (MemberExpression (Identifier "w" (50, 51))
          (Identifier "navigation" (52, 62)) false false) = Some ObjLocation.
Proof. split; vm_compute; reflexivity. Qed.

End ResolverClaims.

(** ** The sink visitor *)

Section VisitorFacts.

Import Rule.

Variable context : Context.

(** Entering [with (object) ...] makes the resolved header the current
    with-object. *)
Lemma getCurrentWithObject_onWithStatement (object body : Node) (st : State) :
  getCurrentWithObject (onWithStatement context (WithStatement object body) st)
  = isRedirectObject context (trackedVariables st) object.
Proof.
  unfold getCurrentWithObject, onWithStatement. cbn [withStack].
  rewrite last_snoc. reflexivity.
Qed.

(** An assignment to a bare identifier runs the identifier block alone. *)
Lemma onAssignmentExpression_identifier
  (operator name : string) (rng : Range) (right_ : Node) (st : State) :
  onAssignmentExpression context
    (AssignmentExpression operator (Identifier name rng) right_) st
  = finish (assignToIdentifier context (Identifier name rng) name right_ st).
Proof. reflexivity. Qed.

(** An assignment to a member expression runs the member block alone. *)
Lemma onAssignmentExpression_member
  (operator : string) (object property : Node) (computed optional : bool)
  (right_ : Node) (st : State) :
  onAssignmentExpression context
    (AssignmentExpression operator
       (MemberExpression object property computed optional) right_) st
  = finish (assignToMember context
              (MemberExpression object property computed optional)
              object property computed right_ st).
Proof.
  unfold onAssignmentExpression. cbn [unwrapChainExpression].
  destruct (assignToMember _ _ _ _ _ _ _); reflexivity.
Qed.

(** Nothing is a sink through an object that resolves to nothing, unless
    the object is the global [document] or [globalThis]. *)
Lemma assignToMember_unresolved
  (object property : Node) (computed optional : bool) (right_ : Node) (st : State) :
  isRedirectObject context (trackedVariables st) object = None ->
  isIdentifier object && isGlobalIdentifier object (sourceCode context) = false ->
  assignToMember context (MemberExpression object property computed optional)
    object property computed right_ st = Next st.
Proof.
  intros Hr Hg. unfold assignToMember. rewrite Hr. cbn [isObj].
  destruct (isSomeSink _ && isIdentifier property); cbn [andThen];
    rewrite Hr, Hg; cbn [isObj];
    destruct (isIdentifierNamed property "location"); cbn [andThen];
    rewrite ?Hr; cbn [isObj]; destruct computed; reflexivity.
Qed.

End VisitorFacts.

Section VisitorClaims.

Import Rule.

(** C9.  With a current with-object of any kind, [href = x] is reported
    when the type information gives [href] a type displayed as [string] or
    as something containing [Location] and [x] is not safe.  With no type
    for [href], a with-object other than [location], and [href] itself not
    resolving to [location], nothing is reported. *)
Theorem with_href_reported_on_type_information
  (context : Context) (st : State) (rng : Range) (operator : string)
  (right_ : Node) (within : RedirectObject) :
  getCurrentWithObject st = Some within ->
  (forall leftType : TsType,
     getType context (Identifier "href" rng) = Some leftType ->
     display leftType = "string"
     \/ Js.strIncludes (display leftType) "Location" = true ->
     isValueSafe context right_ = false ->
     onAssignmentExpression context
       (AssignmentExpression operator (Identifier "href" rng) right_) st
     = reportUnsafeRedirect right_ st)
  /\ (getType context (Identifier "href" rng) = None ->
      within <> ObjLocation ->
      isRedirectObject context (trackedVariables st) (Identifier "href" rng)
      <> Some ObjLocation ->
      onAssignmentExpression context
        (AssignmentExpression operator (Identifier "href" rng) right_) st = st).
Proof.
  intros Hwith. split.
  - intros leftType Htype Hname Hunsafe.
    rewrite onAssignmentExpression_identifier. unfold assignToIdentifier.
    destruct (isObj _ ObjLocation).
    + unfold reportUnlessSafe. rewrite Hunsafe. reflexivity.
    + rewrite Hwith, Htype, Hunsafe. cbn [andThen negb].
      replace (String.eqb (display leftType) "string"
               || Js.strIncludes (display leftType) "Location") with true.
      * reflexivity.
      * destruct Hname as [-> | ->]; [reflexivity|now rewrite orb_true_r].
  - intros Htype Hkind Hleft.
    rewrite onAssignmentExpression_identifier. unfold assignToIdentifier.
    destruct (isRedirectObject context (trackedVariables st) (Identifier "href" rng))
      as [[| |]|]; try (now contradiction Hleft); cbn [isObj RedirectObject_eqb];
      rewrite Hwith, Htype; destruct within; try (now contradiction Hkind);
      reflexivity.
Qed.

Lemma with_href_reported_witness :
  getCurrentWithObject insideWithWindow = Some ObjWindow
  /\ getType typedWindows (Identifier "href" (15, 19)) = Some StringType
  /\ isValueSafe typedWindows someVariable = false
  /\ onAssignmentExpression typedWindows
       (AssignmentExpression "=" (Identifier "href" (15, 19)) someVariable)
       insideWithWindow
     = reportUnsafeRedirect someVariable insideWithWindow.
Proof.
  repeat (split; [reflexivity|]).
  exact (proj1 (with_href_reported_on_type_information typedWindows
                  insideWithWindow (15, 19) "=" someVariable ObjWindow eq_refl)
           StringType eq_refl (or_introl eq_refl) eq_refl).
Defined.

(** C10.  [getRedirectSinkType] never answers [location]: it answers
    [href], [replace], [assign] or [navigate] exactly when the property is
    an identifier of that name, and [null] otherwise.  An assignment to
    [object.location] is handled by the name test of the assignment
    handler: it is a sink when [object] resolves to the window object or is
    the global [document] or [globalThis]. *)
Theorem getRedirectSinkType_never_location
  (object property : Node) (computed optional : bool) :
  getRedirectSinkType (MemberExpression object property computed optional)
  <> Some SinkLocation
  /\ (forall k : SinkType,
        getRedirectSinkType (MemberExpression object property computed optional)
        = Some k
        <-> k <> SinkLocation
            /\ exists rng, property = Identifier (sinkTypeName k) rng)
  /\ (forall (context : Context) (st : State) (rng : Range) (operator : string)
             (right_ : Node),
        getRedirectSinkType
          (MemberExpression object (Identifier "location" rng) false optional)
        = None
        /\ onAssignmentExpression context
             (AssignmentExpression operator
                (MemberExpression object (Identifier "location" rng) false optional)
                right_) st
           = if isObj (isRedirectObject context (trackedVariables st) object)
                  ObjWindow
                || (isIdentifier object
                    && isGlobalIdentifier object (sourceCode context)
                    && (isIdentifierNamed object "document"
                        || isIdentifierNamed object "globalThis"))
             then reportUnlessSafe context right_ st
             else st).
Proof.
  assert (Hiff : forall k : SinkType,
             sinkTypeOfProperty property = Some k
             <-> k <> SinkLocation
                 /\ exists rng, property = Identifier (sinkTypeName k) rng).
  { intros k. split.
    - destruct property as [name rng| | | | | | | | | |]; try discriminate.
      cbn [sinkTypeOfProperty].
      destruct (String.eqb name "href") eqn:E1;
        [apply String.eqb_eq in E1; intros [= <-]; subst name;
         split; [discriminate|eexists; reflexivity]|].
      destruct (String.eqb name "replace") eqn:E2;
        [apply String.eqb_eq in E2; intros [= <-]; subst name;
         split; [discriminate|eexists; reflexivity]|].
      destruct (String.eqb name "assign") eqn:E3;
        [apply String.eqb_eq in E3; intros [= <-]; subst name;
         split; [discriminate|eexists; reflexivity]|].
      destruct (String.eqb name "navigate") eqn:E4;
        [apply String.eqb_eq in E4; intros [= <-]; subst name;
         split; [discriminate|eexists; reflexivity]|].
      discriminate.
    - intros (Hk & rng & ->).
      destruct k; try reflexivity. now contradiction Hk. }
  split; [|split].
  - cbn [getRedirectSinkType]. intros H. apply Hiff in H as [H _].
    now contradiction H.
  - exact Hiff.
  - intros context st rng operator right_. split; [reflexivity|].
    rewrite onAssignmentExpression_member. unfold assignToMember.
    change (getRedirectSinkType
              (MemberExpression object (Identifier "location" rng) false optional))
      with (@None SinkType).
    change (isIdentifierNamed (Identifier "location" rng) "location") with true.
    cbn [isSomeSink andb andThen].
    destruct (isObj _ ObjWindow); cbn [orb andThen finish]; [reflexivity|].
    destruct (isIdentifier object && isGlobalIdentifier object (sourceCode context));
      cbn [andb]; [|reflexivity].
    destruct (isIdentifierNamed object "document" || isIdentifierNamed object "globalThis");
      reflexivity.
Qed.

End VisitorClaims.

(** ** Shadowing *)

Section ShadowingFacts.

Import Rule.

Variable context : Context.

(** A name with a definition recorded in the scope of the occurrence
    itself is not taken for a global. *)
Lemma isGlobalIdentifier_defined_here
  (name : string) (rng : Range) (variable : ScopeVariable) :
  set (getScope (sourceCode context) (Identifier name rng)) !! name = Some variable ->
  defs variable <> [] ->
  isGlobalIdentifier (Identifier name rng) (sourceCode context) = false.
Proof.
  intros Hv Hd. unfold isGlobalIdentifier. rewrite Hv.
  destruct (defs variable); [now contradiction Hd|reflexivity].
Qed.

(** A name with no definition recorded in any scope around the occurrence
    is taken for a global. *)
Lemma isGlobalIdentifier_unbound (name : string) (rng : Range) :
  boundInEnclosingScopes name (getScope (sourceCode context) (Identifier name rng))
  = false ->
  isGlobalIdentifier (Identifier name rng) (sourceCode context) = true.
Proof.
  unfold isGlobalIdentifier.
  destruct (getScope (sourceCode context) (Identifier name rng)) as [vars up].
  cbn [boundInEnclosingScopes set]. intros H.
  apply orb_false_iff in H as [H _].
  destruct (vars !! name) as [variable|]; [|reflexivity].
  now apply negb_false_iff in H.
Qed.

(** A shadowed name that neither the type block nor the alias map
    resolves resolves to nothing. *)
Lemma isRedirectObject_shadowed
  (tracked : gmap string VariableInfo) (name : string) (rng : Range) :
  isGlobalIdentifier (Identifier name rng) (sourceCode context) = false ->
  redirectObjectByType context (Identifier name rng) = None ->
  match tracked !! name with
  | Some varInfo => redirectObjectOfVarInfo varInfo
  | None => None
  end = None ->
  isRedirectObject context tracked (Identifier name rng) = None.
Proof.
  intros Hg Ht Ha. rewrite isRedirectObject_identifier, Ht, Ha, Hg. reflexivity.
Qed.

(** A call of a member of something that resolves to nothing is no sink. *)
Lemma onCallExpression_member_unresolved
  (object property : Node) (computed optional : bool) (args : list Node)
  (st : State) :
  isRedirectObject context (trackedVariables st) object = None ->
  onCallExpression context
    (CallExpression (MemberExpression object property computed optional) args) st
  = st.
Proof.
  intros Hr. unfold onCallExpression, getOpenCallInfo.
  cbn [isIdentifierNamed unwrapChainExpression].
  destruct (isIdentifierNamed property "open").
  - rewrite Hr. reflexivity.
  - rewrite Hr. cbn [isObj].
    destruct (isSink _ SinkReplace || isSink _ SinkAssign);
      rewrite ?Hr; cbn [isObj]; destruct (isSink _ SinkNavigate); reflexivity.
Qed.

(** A call of a shadowed [open], [location], [window] or [navigation] is
    no sink. *)
Lemma onCallExpression_shadowed
  (name : string) (rng : Range) (args : list Node) (st : State) :
  In name ["location"; "window"; "navigation"; "open"] ->
  isGlobalIdentifier (Identifier name rng) (sourceCode context) = false ->
  onCallExpression context (CallExpression (Identifier name rng) args) st = st.
Proof.
  intros Hn Hg. unfold onCallExpression, getOpenCallInfo.
  cbn [isIdentifierNamed unwrapChainExpression].
  destruct (String.eqb name "open") eqn:Eopen.
  - rewrite Hg. reflexivity.
  - cbn in Hn. destruct Hn as [<-|[<-|[<-|[<-|[]]]]];
      try discriminate Eopen; cbn [String.eqb];
      destruct (isObj (getCurrentWithObject st) ObjLocation); reflexivity.
Qed.

(** An assignment to a bare name other than [href] that does not resolve
    to [location] is no sink. *)
Lemma onAssignmentExpression_name_unresolved
  (operator name : string) (rng : Range) (right_ : Node) (st : State) :
  String.eqb name "href" = false ->
  isRedirectObject context (trackedVariables st) (Identifier name rng) = None ->
  onAssignmentExpression context
    (AssignmentExpression operator (Identifier name rng) right_) st = st.
Proof.
  intros Hn Hr. rewrite onAssignmentExpression_identifier.
  unfold assignToIdentifier. rewrite Hr. cbn [isObj].
  destruct (getCurrentWithObject st) as [within|]; [|reflexivity].
  destruct (getType context (Identifier name rng)) as [leftType|].
  - rewrite Hn. cbn [andb].
    destruct (String.eqb (display leftType) "string" || _);
      cbn [andThen]; rewrite andb_false_r; reflexivity.
  - cbn [andThen]. rewrite Hn, andb_false_r. reflexivity.
Qed.

End ShadowingFacts.

Section ShadowingClaims.

Import Rule.

(** C4, as amended.  An occurrence of [location], [window], [navigation]
    or [open] with a definition recorded in the scope of the occurrence
    itself is not taken for the global: a call of it is no sink, and,
    when neither the type block nor the alias map resolves the name, it
    resolves to nothing, so that assignments to it or to its members and
    calls of its members draw no diagnostic.  A name with no definition
    recorded in any scope around the occurrence is taken for the global. *)
Theorem shadowed_in_own_scope_is_no_sink
  (context : Context) (name : string) (rng : Range) :
  (forall (variable : ScopeVariable) (st : State),
     In name ["location"; "window"; "navigation"; "open"] ->
     set (getScope (sourceCode context) (Identifier name rng)) !! name
     = Some variable ->
     defs variable <> [] ->
     isGlobalIdentifier (Identifier name rng) (sourceCode context) = false
     /\ (forall args,
           onCallExpression context (CallExpression (Identifier name rng) args) st
           = st)
     /\ (redirectObjectByType context (Identifier name rng) = None ->
         match trackedVariables st !! name with
         | Some varInfo => redirectObjectOfVarInfo varInfo
         | None => None
         end = None ->
         isRedirectObject context (trackedVariables st) (Identifier name rng) = None
         /\ (forall operator property computed optional right_,
               onAssignmentExpression context
                 (AssignmentExpression operator
                    (MemberExpression (Identifier name rng) property computed
                       optional) right_) st = st)
         /\ (forall operator right_,
               onAssignmentExpression context
                 (AssignmentExpression operator (Identifier name rng) right_) st
               = st)
         /\ (forall property computed optional args,
               onCallExpression context
                 (CallExpression
                    (MemberExpression (Identifier name rng) property computed
                       optional) args) st = st)))
  /\ (boundInEnclosingScopes name
        (getScope (sourceCode context) (Identifier name rng)) = false ->
      isGlobalIdentifier (Identifier name rng) (sourceCode context) = true).
Proof.
  split; [|apply isGlobalIdentifier_unbound].
  intros variable st Hn Hv Hd.
  pose proof (isGlobalIdentifier_defined_here context name rng variable Hv Hd)
    as Hg.
  split; [exact Hg|]. split.
  - intros args. now apply onCallExpression_shadowed.
  - intros Ht Ha.
    pose proof (isRedirectObject_shadowed context (trackedVariables st) name rng
                  Hg Ht Ha) as Hr.
    split; [exact Hr|]. split; [|split].
    + intros operator property computed optional right_.
      rewrite onAssignmentExpression_member.
      rewrite assignToMember_unresolved; [reflexivity|exact Hr|].
      rewrite Hg. apply andb_false_r.
    + intros operator right_.
      apply onAssignmentExpression_name_unresolved; [|exact Hr].
      cbn in Hn. destruct Hn as [<-|[<-|[<-|[<-|[]]]]]; reflexivity.
    + intros property computed optional args.
      now apply onCallExpression_member_unresolved.
Qed.

Lemma shadowed_in_own_scope_witness :
  set (getScope (sourceCode insideParameterScope) localLocation) !! "location"
  = Some {| defs := [DefParameter] |}
  /\ isGlobalIdentifier localLocation (sourceCode insideParameterScope) = false
  /\ onAssignmentExpression insideParameterScope
       (AssignmentExpression "="
          (MemberExpression localLocation (Identifier "href" (56, 60)) false false)
          someVariable) initialState = initialState.
Proof.
  assert (Hv : set (getScope (sourceCode insideParameterScope) localLocation)
               !! "location" = Some {| defs := [DefParameter] |})
    by (vm_compute; reflexivity).
  assert (Hd : defs {| defs := [DefParameter] |} <> []) by discriminate.
  pose proof (proj1 (shadowed_in_own_scope_is_no_sink insideParameterScope
                       "location" (47, 55))
                {| defs := [DefParameter] |} initialState
                (or_introl eq_refl) Hv Hd) as (Hg & _ & H).
  split; [exact Hv|]. split; [exact Hg|].
  exact (proj1 (proj2 (H eq_refl eq_refl)) "=" (Identifier "href" (56, 60))
           false false someVariable).
Defined.

(** C4, as the specification words it, fails: in
    [function f() { var location = window.location;
                    location.href = someVariable; }]
    the name [location] is a local variable, its occurrence is not taken
    for the global, and the assignment through it is reported all the same,
    the alias map having recorded the name as an alias of [location]. *)
Lemma aliased_local_is_reported :
  set (getScope (sourceCode insideFunction) localLocation) !! "location"
  = Some {| defs := [DefVariable] |}
  /\ isGlobalIdentifier localLocation (sourceCode insideFunction) = false
  /\ lint insideFunction aliasedLocal
     = [{| at_node := someVariable; messageId := "unsafeRedirect" |}].
Proof. repeat split; vm_compute; reflexivity. Qed.

(** Not part of the amended C4: the test looks at the scope of the
    occurrence alone.  In
    [function g(location) { if (c) { location.href = someVariable; } }]
    the parameter is recorded one scope up, and the occurrence in the block
    is taken for the global [location]. *)
Lemma outer_binding_not_seen_from_inner_scope :
  boundInEnclosingScopes "location"
    (getScope (sourceCode insideBlock) localLocation) = true
  /\ isGlobalIdentifier localLocation (sourceCode insideBlock) = true
  /\ isRedirectObject insideBlock ∅ localLocation = Some ObjLocation
  /\ onAssignmentExpression insideBlock
       (AssignmentExpression "="
          (MemberExpression localLocation (Identifier "href" (56, 60)) false false)
          someVariable) initialState
     = reportUnsafeRedirect someVariable initialState.
Proof. repeat split; vm_compute; reflexivity. Qed.

End ShadowingClaims.

(** * Further properties *)

(** ** The runtime validator, beyond the claims *)

Section RuntimeExtras.

Import Runtime.

Variable newURL : string -> option string -> URL + string.

Lemma nonEmpty_true_iff (s : string) : Js.nonEmpty s = true <-> s <> "".
Proof. destruct s; cbn; split; congruence. Qed.

(** X1.  [ensureTrustedUrl] returns a value exactly when its argument is a
    non-empty string that parses, with an allowed protocol, with an allowed
    origin or [allowCrossOrigin] set, and whose lower-cased residue does
    not start with [javascript:]; the value is then the argument. *)
Theorem ensureTrustedUrl_returns_iff
  (url v : JsValue) (options : EnsureTrustedUrlOptions) (w : Ambient) :
  snd (ensureTrustedUrl newURL url options w) = inr v
  <-> exists s u,
        url = JsString s /\ v = url /\ s <> ""
        /\ newURL s (currentOriginOf (window w)) = inl u
        /\ Js.includes (effectiveAllowedProtocols options) (protocol u) = true
        /\ (Js.includes (effectiveAllowedOrigins (window w) options) (origin u) = true
            \/ effectiveAllowCrossOrigin options = true)
        /\ Js.startsWith (Js.stripNonLowerColon (Js.toLowerCase s)) "javascript:"
           = false.
Proof.
  split.
  - destruct (input_check_cases url) as [H|(s & -> & Hs)].
    + rewrite ensureTrustedUrl_invalid_input by exact H. discriminate.
    + rewrite ensureTrustedUrl_run by exact Hs. cbn [snd].
      destruct (newURL s _) as [u|r] eqn:Hparse; [|discriminate].
      destruct (Js.includes (effectiveAllowedProtocols options) (protocol u))
        eqn:Hp; cbn [negb]; [|discriminate].
      destruct (Js.includes (effectiveAllowedOrigins _ _) (origin u)) eqn:Ho;
        destruct (effectiveAllowCrossOrigin options) eqn:Hx; cbn [negb andb];
        try discriminate;
        (destruct (Js.startsWith _ _) eqn:Hj; [discriminate|]);
        intros [= <-]; exists s, u;
        repeat split; auto; now apply nonEmpty_true_iff.
  - intros (s & u & -> & -> & Hs & Hparse & Hp & Ho & Hj).
    apply nonEmpty_true_iff in Hs.
    rewrite ensureTrustedUrl_run by exact Hs. cbn [snd].
    rewrite Hparse, Hp, Hj. cbn [negb].
    destruct Ho as [-> | ->]; rewrite ?andb_false_r; reflexivity.
Qed.

(** X2.  The first throw, "URL must be a non-empty string", is raised
    exactly for the arguments that are not a non-empty string, whatever
    the options, the parser and the context. *)
Theorem invalid_input_iff
  (url : JsValue) (options : EnsureTrustedUrlOptions) (w : Ambient) :
  snd (ensureTrustedUrl newURL url options w) = inl NotANonEmptyString
  <-> ~ exists s, url = JsString s /\ s <> "".
Proof.
  destruct (input_check_cases url) as [H|(s & -> & Hs)].
  - rewrite ensureTrustedUrl_invalid_input by exact H. split; [|reflexivity].
    intros _ (s & -> & Hne). apply nonEmpty_true_iff in Hne.
    cbn in H. rewrite Hne in H. discriminate H.
  - rewrite ensureTrustedUrl_run by exact Hs. cbn [snd]. split.
    + destruct (newURL s _) as [u|r]; [|discriminate].
      repeat match goal with |- context [if ?b then _ else _] => destruct b end;
        discriminate.
    + intros H. exfalso. apply H. exists s. split; [reflexivity|].
      now apply nonEmpty_true_iff.
Qed.

(** X3.  [isTrustedUrl] never throws and leaves the context as it was;
    its answer is [true] exactly when [ensureTrustedUrl] returns on the
    same arguments. *)
Theorem isTrustedUrl_agrees
  (url : JsValue) (options : EnsureTrustedUrlOptions) (w : Ambient) :
  fst (isTrustedUrl newURL url options w) = w
  /\ exists b : bool,
       snd (isTrustedUrl newURL url options w) = inr b
       /\ (b = true <-> snd (ensureTrustedUrl newURL url options w) = inr url).
Proof.
  pose proof (ensureTrustedUrl_context_unchanged newURL url options w) as Hw.
  pose proof (ensureTrustedUrl_returns_argument newURL url) as Hv.
  specialize (fun v => Hv v options w).
  unfold isTrustedUrl.
  destruct (ensureTrustedUrl newURL url options w) as [w' [e|v]];
    cbn [fst snd] in *.
  - split; [exact Hw|]. exists false. split; [reflexivity|].
    split; discriminate.
  - split; [exact Hw|]. exists true. split; [reflexivity|].
    split; [|reflexivity]. intros _. now rewrite (Hv v eq_refl).
Qed.

(** X4.  Where the context has no origin and the caller gives neither
    [allowedOrigins] nor [allowCrossOrigin], nothing is ever returned:
    what gets through the input, parsing and protocol checks is refused as
    cross-origin. *)
Theorem no_ambient_origin_refuses_all
  (url : JsValue) (options : EnsureTrustedUrlOptions) (w : Ambient) :
  currentOriginOf (window w) = None ->
  allowedOrigins options = None ->
  effectiveAllowCrossOrigin options = false ->
  (exists e, snd (ensureTrustedUrl newURL url options w) = inl e)
  /\ (forall s u,
        url = JsString s ->
        passesProtocolCheck newURL (window w) s options u ->
        snd (ensureTrustedUrl newURL url options w)
        = inl (CrossOriginNotAllowed (origin u))).
Proof.
  intros Hw Ho Hx.
  assert (Hlist : effectiveAllowedOrigins (window w) options = [])
    by (unfold effectiveAllowedOrigins; now rewrite Ho, Hw).
  split.
  - destruct (input_check_cases url) as [H|(s & -> & Hs)].
    + rewrite ensureTrustedUrl_invalid_input by exact H. eauto.
    + rewrite ensureTrustedUrl_run by exact Hs. cbn [snd].
      rewrite Hlist, Hx. cbn [Js.includes existsb negb andb].
      destruct (newURL s _) as [u|r]; [|eauto].
      destruct (negb _); eauto.
  - intros s u -> (Hs & Hparse & Hp).
    rewrite ensureTrustedUrl_run by exact Hs. cbn [snd].
    rewrite Hparse, Hp, Hlist, Hx. reflexivity.
Qed.

End RuntimeExtras.

Section RuntimeExtras2.

Import Runtime.

Lemma no_ambient_origin_witness :
  currentOriginOf (window noWindow) = None
  /\ snd (ensureTrustedUrl sampleNewURL (JsString "https://example.com/page")
            noOptions noWindow)
     = inl (CrossOriginNotAllowed "https://example.com").
Proof.
  split; [reflexivity|].
  refine (proj2 (no_ambient_origin_refuses_all sampleNewURL
                   (JsString "https://example.com/page") noOptions noWindow
                   eq_refl eq_refl eq_refl)
            "https://example.com/page" sameOriginURL eq_refl _).
  repeat split.
Defined.

(** X5.  The current origin is read only from a [window] that is an
    object whose [location] is an object whose [origin] is a string;
    anything else ([undefined], [null], a missing or ill-typed field)
    gives no origin. *)
Theorem currentOriginOf_Some_iff (win : JsValue) (o : string) :
  currentOriginOf win = Some o
  <-> exists props locationProps,
        win = JsObject props
        /\ assoc "location" props = Some (JsObject locationProps)
        /\ assoc "origin" locationProps = Some (JsString o).
Proof.
  unfold currentOriginOf. split.
  - destruct win as [| |b|n|s|props]; try discriminate.
    cbn [typeof truthy hasProp getProp andb].
    change (String.eqb "object" "object") with true. cbn [andb].
    destruct (assoc "location" props) as [loc|] eqn:Hl; [|discriminate].
    cbn [andb].
    destruct loc as [| |b|n|s|locationProps]; try discriminate.
    cbn [typeof truthy hasProp getProp andb].
    change (String.eqb "object" "object") with true. cbn [andb].
    destruct (assoc "origin" locationProps) as [v|] eqn:Ho; [|discriminate].
    cbn [andb].
    destruct v as [| |b|n|s|p]; try discriminate.
    intros [= ->]. exists props, locationProps. auto.
  - intros (props & locationProps & -> & Hl & Ho).
    cbn [typeof truthy hasProp getProp]. rewrite Hl.
    cbn [typeof truthy hasProp getProp]. rewrite Ho. reflexivity.
Qed.

(** X6.  With [allowCrossOrigin: true] the list of allowed origins plays
    no part: two calls that differ in [allowedOrigins] alone come out the
    same. *)
Theorem allowCrossOrigin_overrides_allowedOrigins
  (newURL : string -> option string -> URL + string)
  (url : JsValue) (protocols : option (list string))
  (origins origins' : option (list string)) (w : Ambient) :
  ensureTrustedUrl newURL url
    {| allowCrossOrigin := Some true; allowedProtocols := protocols;
       allowedOrigins := origins |} w
  = ensureTrustedUrl newURL url
      {| allowCrossOrigin := Some true; allowedProtocols := protocols;
         allowedOrigins := origins' |} w.
Proof.
  destruct (input_check_cases url) as [H|(s & -> & Hs)].
  - now rewrite !ensureTrustedUrl_invalid_input.
  - rewrite !ensureTrustedUrl_run by exact Hs.
    unfold effectiveAllowCrossOrigin, effectiveAllowedProtocols.
    cbn [allowCrossOrigin allowedProtocols from_option id negb].
    destruct (newURL s _) as [u|r]; [|reflexivity].
    now rewrite !andb_false_r.
Qed.

(** X7.  No options and no parser make the validator return a string
    whose letters and colons, lower-cased, begin with [javascript:]. *)
Theorem javascript_residue_never_returned
  (newURL : string -> option string -> URL + string)
  (s : string) (options : EnsureTrustedUrlOptions) (w : Ambient) :
  Js.startsWith (Js.stripNonLowerColon (Js.toLowerCase s)) "javascript:" = true ->
  exists e, snd (ensureTrustedUrl newURL (JsString s) options w) = inl e.
Proof.
  intros Hj.
  destruct (input_check_cases (JsString s)) as [H|(s' & [= <-] & Hs)].
  - rewrite ensureTrustedUrl_invalid_input by exact H. eauto.
  - rewrite ensureTrustedUrl_run by exact Hs. cbn [snd]. rewrite Hj.
    destruct (newURL s _) as [u|r]; [|eauto].
    destruct (negb _); [eauto|]. destruct (_ && _); eauto.
Qed.

Lemma javascript_residue_witness :
  Js.startsWith (Js.stripNonLowerColon (Js.toLowerCase "javascript:alert(1)"))
    "javascript:" = true
  /\ exists e,
       snd (ensureTrustedUrl sampleNewURL (JsString "javascript:alert(1)")
              permissive exampleWindow) = inl e.
Proof.
  split; [reflexivity|].
  exact (javascript_residue_never_returned sampleNewURL "javascript:alert(1)"
           permissive exampleWindow eq_refl).
Defined.

Lemma lowerChar_fixes_lower (c : ascii) :
  Js.isLowerOrColon c = true -> Js.lowerChar c = c.
Proof.
  destruct c as [[] [] [] [] [] [] [] []]; vm_compute; intros H;
    try discriminate H; reflexivity.
Qed.

Lemma normalize_strip_fixed (s : string) :
  Js.stripNonLowerColon (Js.toLowerCase (Js.stripNonLowerColon s))
  = Js.stripNonLowerColon s.
Proof.
  induction s as [|c s IH]; [reflexivity|].
  cbn [Js.stripNonLowerColon]. destruct (Js.isLowerOrColon c) eqn:Hc; [|exact IH].
  cbn [Js.toLowerCase Js.stripNonLowerColon].
  rewrite (lowerChar_fixes_lower c Hc), Hc, IH. reflexivity.
Qed.

(** X8.  The normalisation of line 109, lower-casing then dropping
    everything but [a-z] and the colon, distributes over concatenation
    and is idempotent: characters dropped anywhere in the input do not
    change what the [javascript:] test sees. *)
Theorem normalization_append_idempotent (a b : string) :
  Js.stripNonLowerColon (Js.toLowerCase (a +:+ b))
  = Js.stripNonLowerColon (Js.toLowerCase a)
    +:+ Js.stripNonLowerColon (Js.toLowerCase b)
  /\ Js.stripNonLowerColon
       (Js.toLowerCase (Js.stripNonLowerColon (Js.toLowerCase a)))
     = Js.stripNonLowerColon (Js.toLowerCase a).
Proof.
  split; [|apply normalize_strip_fixed].
  induction a as [|c a IH]; [reflexivity|].
  change (String c a +:+ b) with (String c (a +:+ b)).
  cbn [Js.toLowerCase Js.stripNonLowerColon].
  destruct (Js.isLowerOrColon (Js.lowerChar c)); [|exact IH].
  rewrite IH. reflexivity.
Qed.

End RuntimeExtras2.

(** ** The safety classifier, beyond the claims *)

Section ClassifierExtras.

Import Rule.

Lemma plusChain_shape (others : list Node) (left_ right_ : Node) :
  exists left' right',
    plusChain (BinaryExpression "+" left_ right_) others
    = BinaryExpression "+" left' right'
    /\ descendLeft left' = descendLeft left_.
Proof.
  revert left_ right_.
  induction others as [|operand others IH]; intros left_ right_.
  - exists left_, right_. split; reflexivity.
  - destruct (IH (BinaryExpression "+" left_ right_) operand)
      as (left' & right' & Heq & Hd).
    exists left', right'. split; [exact Heq|]. rewrite Hd. reflexivity.
Qed.

Lemma isValueSafe_plus_same_leftmost
  (context : Context) (left_ left' right_ right' : Node) :
  descendLeft left' = descendLeft left_ ->
  isValueSafe context (BinaryExpression "+" left' right')
  = isValueSafe context (BinaryExpression "+" left_ right_).
Proof.
  intros H. unfold isValueSafe. cbn [isSafeLiteral].
  change (String.eqb "+" "+") with true. cbv iota. now rewrite H.
Qed.

(** X9.  In a chain [first + o1 + ... + on] of any length only [first]
    counts: the chain is classified as [first + c] is, for any [c]
    whatever. *)
Theorem plus_only_leftmost_counts
  (context : Context) (first operand c : Node) (others : list Node) :
  isValueSafe context (plusChain first (operand :: others))
  = isValueSafe context (BinaryExpression "+" first c).
Proof.
  change (plusChain first (operand :: others))
    with (plusChain (BinaryExpression "+" first operand) others).
  destruct (plusChain_shape others first operand)
    as (left' & right' & -> & Hd).
  now apply isValueSafe_plus_same_leftmost.
Qed.

Lemma isSafeByTypeOrCall_untyped (context : Context) (n : Node) :
  typeAtLocation context = None ->
  isSafeByTypeOrCall context n = true ->
  exists rng args, n = CallExpression (Identifier "ensureTrustedUrl" rng) args.
Proof.
  intros Hu. unfold isSafeByTypeOrCall, getType. rewrite Hu.
  destruct n as [| | | | |callee args| | | | |]; try discriminate.
  destruct callee as [name rng| | | | | | | | | |]; try discriminate.
  cbn [isIdentifierNamed]. intros H. apply String.eqb_eq in H as ->. eauto.
Qed.

Lemma isSafeByTypeOrCall_validator_call
  (context : Context) (rng : Range) (args : list Node) :
  isSafeByTypeOrCall context
    (CallExpression (Identifier "ensureTrustedUrl" rng) args) = true.
Proof.
  unfold isSafeByTypeOrCall.
  destruct (match getType context _ with Some _ => _ | None => _ end);
    reflexivity.
Qed.

Lemma isValueSafe_interpolated
  (context : Context) (quasis : list TemplateElement) (e : Node) (es : list Node) :
  isValueSafe context (TemplateLiteral quasis (e :: es)) = true
  <-> exists firstQuasi rest,
        quasis = firstQuasi :: rest
        /\ raw firstQuasi <> "" /\ Js.NotOnlySlashes (raw firstQuasi).
Proof.
  unfold isValueSafe. cbn [isSafeLiteral]. cbv iota.
  destruct quasis as [|firstQuasi rest]; cbn [lookup list_lookup].
  - split; [discriminate|]. intros (q & r & H & _). discriminate H.
  - rewrite nonEmpty_not_slashOnly_iff. split.
    + intros H. exists firstQuasi, rest. split; [reflexivity|exact H].
    + intros (q & r & [= <- <-] & H). exact H.
Qed.

(** X10.  A value of one of the safe shapes (string literal, template
    without interpolation, template or [+] with a safe leading text, call
    of an identifier named [ensureTrustedUrl]) is safe in every file; in a
    file without type information nothing else is. *)
Theorem isValueSafe_shapes (context : Context) (n : Node) :
  (SafeShape n -> isValueSafe context n = true)
  /\ (typeAtLocation context = None ->
      isValueSafe context n = true -> SafeShape n).
Proof.
  split.
  - intros [s|quasis|q rest e es Hne Hns|l r value Hl Hv|l r q es Hl Hne Hns
            |rng args].
    + reflexivity.
    + reflexivity.
    + apply isValueSafe_interpolated. eauto.
    + apply isValueSafe_plus. left. eauto.
    + apply isValueSafe_plus. right. eauto.
    + apply isSafeByTypeOrCall_validator_call.
  - intros Hu.
    destruct n as [name rng|value|quasis es|operator l r|o p c opt|callee args
                   |e|op l r|id init|o b|t cs].
    + intros H. apply isSafeByTypeOrCall_untyped in H as (? & ? & [=]); assumption.
    + destruct value; try (intros _; constructor);
        intros H; apply isSafeByTypeOrCall_untyped in H as (? & ? & [=]);
        assumption.
    + destruct es as [|e es]; [intros _; constructor|].
      intros H. apply isValueSafe_interpolated in H
        as (q & rest & -> & Hne & Hns). now constructor.
    + destruct (String.eqb operator "+") eqn:Hop.
      * apply String.eqb_eq in Hop as ->. intros H.
        apply isValueSafe_plus in H
          as [(value & Hl & Hv)|(q & es & Hl & Hne & Hns)].
        -- eapply Safe_literal_prefix; eassumption.
        -- eapply Safe_template_prefix; eassumption.
      * unfold isValueSafe. cbn [isSafeLiteral]. rewrite Hop.
        intros H. apply isSafeByTypeOrCall_untyped in H as (? & ? & [=]);
          assumption.
    + intros H. apply isSafeByTypeOrCall_untyped in H as (? & ? & [=]); assumption.
    + intros H. apply isSafeByTypeOrCall_untyped in H as (rng & args' & ->);
        [constructor|assumption].
    + intros H. apply isSafeByTypeOrCall_untyped in H as (? & ? & [=]); assumption.
    + intros H. apply isSafeByTypeOrCall_untyped in H as (? & ? & [=]); assumption.
    + intros H. apply isSafeByTypeOrCall_untyped in H as (? & ? & [=]); assumption.
    + intros H. apply isSafeByTypeOrCall_untyped in H as (? & ? & [=]); assumption.
    + intros H. apply isSafeByTypeOrCall_untyped in H as (? & ? & [=]); assumption.
Qed.

Lemma isValueSafe_shapes_witness :
  SafeShape (CallExpression (Identifier "ensureTrustedUrl" (0, 16)) [someVariable])
  /\ isValueSafe typedWindows
       (CallExpression (Identifier "ensureTrustedUrl" (0, 16)) [someVariable])
     = true
  /\ SafeShape (Literal (LitString "/dashboard")).
Proof.
  split; [constructor|]. split.
  - exact (proj1 (isValueSafe_shapes typedWindows _)
             (Safe_validator_call (0, 16) [someVariable])).
  - exact (proj2 (isValueSafe_shapes untyped (Literal (LitString "/dashboard")))
             eq_refl eq_refl).
Defined.

(** X11.  The verdict on a template literal or a [+] expression is read
    off its text alone: whatever type the checker gives it, it is safe
    exactly when it has one of the safe shapes. *)
Theorem syntactic_verdict_ignores_types
  (context : Context) (quasis : list TemplateElement)
  (expressions : list Node) (left_ right_ : Node) :
  (isValueSafe context (TemplateLiteral quasis expressions) = true
   <-> SafeShape (TemplateLiteral quasis expressions))
  /\ (isValueSafe context (BinaryExpression "+" left_ right_) = true
      <-> SafeShape (BinaryExpression "+" left_ right_)).
Proof.
  split.
  - destruct expressions as [|e es].
    + split; [intros _; constructor|reflexivity].
    + rewrite isValueSafe_interpolated. split.
      * intros (q & rest & -> & Hne & Hns). now constructor.
      * intros H. inversion H; subst. eauto.
  - rewrite isValueSafe_plus. split.
    + intros [(value & Hl & Hv)|(q & es & Hl & Hne & Hns)].
      * eapply Safe_literal_prefix; eassumption.
      * eapply Safe_template_prefix; eassumption.
    + intros H. inversion H; subst; [left|right]; eauto.
Qed.

(** X12.  An expression that is neither a template literal nor a [+]
    expression is safe as soon as its type carries the brand
    [__brand: "TrustedUrl"] or is a string-literal type. *)
Theorem typed_value_is_safe (context : Context) (n : Node) (type : TsType) :
  getType context n = Some type ->
  isTrustedUrlType context type = true \/ isStringLiteral type = true ->
  (forall quasis expressions, n <> TemplateLiteral quasis expressions) ->
  (forall left_ right_, n <> BinaryExpression "+" left_ right_) ->
  isValueSafe context n = true.
Proof.
  intros Ht Hs Htemplate Hplus.
  assert (H : isSafeByTypeOrCall context n = true).
  { unfold isSafeByTypeOrCall. rewrite Ht.
    destruct Hs as [-> | ->]; rewrite ?orb_true_r; reflexivity. }
  unfold isValueSafe. destruct (isSafeLiteral n); [reflexivity|].
  destruct n as [| |quasis es|operator l r| | | | | | |]; try exact H.
  - now contradiction (Htemplate quasis es).
  - destruct (String.eqb operator "+") eqn:Hop; [|exact H].
    apply String.eqb_eq in Hop as ->. now contradiction (Hplus l r).
Qed.

Lemma typed_value_is_safe_witness :
  getType typedSafeVar (Identifier "safeVar" (60, 67)) = Some TrustedUrlType
  /\ isTrustedUrlType typedSafeVar TrustedUrlType = true
  /\ isValueSafe typedSafeVar (Identifier "safeVar" (60, 67)) = true.
Proof.
  split; [reflexivity|]. split; [reflexivity|].
  apply (typed_value_is_safe typedSafeVar (Identifier "safeVar" (60, 67))
           TrustedUrlType eq_refl (or_introl eq_refl)); discriminate.
Defined.

End ClassifierExtras.

(** ** Type names *)

Section TypeNameExtras.

Import Rule.

Variable context : Context.

Lemma TsType_types_ind (P : TsType -> Prop) :
  (forall t, Forall P (types t) -> P t) -> forall t, P t.
Proof.
  intros H. fix IH 1. intros [sym fl tys props disp]. apply H. cbn [types].
  revert tys. fix IHl 1. intros [|m tys]; constructor; [apply IH|apply IHl].
Qed.

Lemma hasTypeName_unfold (t : TsType) (typeName : string) :
  hasTypeName context t typeName
  = if negb (hasChecker context) then false
    else if symbolIs t typeName then true
    else if isUnion t || isIntersection t
    then existsb (fun m => hasTypeName context m typeName) (types t)
    else false.
Proof.
  destruct t as [sym fl tys props disp]. cbn [hasTypeName].
  unfold symbolIs, isUnion, isIntersection. cbn [symbolName flavour types].
  destruct (negb (hasChecker context)); [reflexivity|].
  destruct (match sym with Some n => String.eqb n typeName | None => false end);
    [reflexivity|].
  destruct fl; reflexivity.
Qed.

Lemma symbolIs_true_iff (t : TsType) (typeName : string) :
  symbolIs t typeName = true <-> symbolName t = Some typeName.
Proof.
  unfold symbolIs. destruct (symbolName t) as [n|].
  - rewrite String.eqb_eq. split; congruence.
  - split; discriminate.
Qed.

(** X13.  The name test of the resolver succeeds exactly when the checker
    is there and the type itself, or a type reached from it through
    members of unions and intersections, bears the name. *)
Theorem hasTypeName_iff_constituent (t : TsType) (typeName : string) :
  hasTypeName context t typeName = true
  <-> hasChecker context = true
      /\ exists c, Constituent t c /\ symbolName c = Some typeName.
Proof.
  split.
  - revert t. apply (TsType_types_ind
      (fun t => hasTypeName context t typeName = true ->
                hasChecker context = true
                /\ exists c, Constituent t c /\ symbolName c = Some typeName)).
    intros t IH. rewrite hasTypeName_unfold.
    destruct (hasChecker context); [|discriminate]. cbn [negb].
    destruct (symbolIs t typeName) eqn:Hs.
    + intros _. split; [reflexivity|]. exists t. split; [constructor|].
      now apply symbolIs_true_iff.
    + destruct (isUnion t || isIntersection t) eqn:Hk; [|discriminate].
      intros H. apply existsb_exists in H as (m & Hin & Hm).
      rewrite Forall_forall in IH.
      destruct (IH m (proj2 (list_elem_of_In _ _) Hin) Hm) as (_ & c & Hc & Hn).
      split; [reflexivity|]. exists c. split; [|exact Hn].
      now apply (Constituent_member t m c).
  - intros (Hc & c & Hcons & Hn).
    induction Hcons as [t|t m c Hk Hin Hcons IH];
      rewrite hasTypeName_unfold, Hc; cbn [negb].
    + now rewrite (proj2 (symbolIs_true_iff t typeName) Hn).
    + destruct (symbolIs t typeName); [reflexivity|]. rewrite Hk.
      apply existsb_exists. exists m. split; [exact Hin|now apply IH].
Qed.

End TypeNameExtras.

(** ** The resolver, beyond the claims *)

Section ResolverExtras.

Import Rule.

Variable context : Context.
Variable tracked : gmap string VariableInfo.

(** X14.  Where the type block gives no answer for a member expression,
    the lexical rules resolve it to [location] or [navigation] only, never
    to the window object, and only through a property that is an
    identifier of that very name. *)
Theorem member_resolution_lexical
  (object property : Node) (computed optional : bool) (k : RedirectObject) :
  redirectObjectByType context
    (MemberExpression object property computed optional) = None ->
  isRedirectObject context tracked
    (MemberExpression object property computed optional) = Some k ->
  k <> ObjWindow
  /\ exists rng, property = Identifier (RedirectObject_name k) rng.
Proof.
  intros Ht. rewrite isRedirectObject_member, Ht. cbn [orElse].
  destruct property as [pname prng| | | | | | | | | |];
    try (destruct object; discriminate).
  assert (Hw : forall objectType,
             redirectObjectOfWindowMember objectType (Identifier pname prng)
             = Some k ->
             k <> ObjWindow
             /\ exists rng, Identifier pname prng
                            = Identifier (RedirectObject_name k) rng).
  { intros objectType. cbn [redirectObjectOfWindowMember].
    destruct (isObj _ ObjWindow); [|discriminate].
    destruct (String.eqb pname "location") eqn:E1.
    - apply String.eqb_eq in E1 as ->. intros [= <-].
      split; [discriminate|]. eexists; reflexivity.
    - destruct (String.eqb pname "navigation") eqn:E2; [|discriminate].
      apply String.eqb_eq in E2 as ->. intros [= <-].
      split; [discriminate|]. eexists; reflexivity. }
  destruct object as [oname orng| | | | | | | | | |]; try apply Hw.
  unfold redirectObjectOfGlobalMember.
  destruct (String.eqb pname "location") eqn:E1.
  - apply String.eqb_eq in E1 as ->.
    change (String.eqb "location" "navigation") with false.
    rewrite andb_false_r. cbn [andb].
    destruct (_ && _); cbn [orElse]; [|apply Hw].
    intros [= <-]. split; [discriminate|]. eexists; reflexivity.
  - cbn [andb]. destruct (String.eqb pname "navigation") eqn:E2.
    + apply String.eqb_eq in E2 as ->.
      destruct (_ && _ && _); cbn [orElse]; [|apply Hw].
      intros [= <-]. split; [discriminate|]. eexists; reflexivity.
    + rewrite andb_false_r. cbn [andb orElse]. apply Hw.
Qed.

(** X15.  Where the type block gives no answer and the alias map has no
    entry for the name, an identifier resolves to a kind exactly when it is
    taken for a global and its name is [location], [window] or
    [navigation]: the bare names [document] and [globalThis] resolve to
    nothing. *)
Theorem identifier_resolution_lexical
  (name : string) (rng : Range) (k : RedirectObject) :
  redirectObjectByType context (Identifier name rng) = None ->
  tracked !! name = None ->
  (isRedirectObject context tracked (Identifier name rng) = Some k
   <-> isGlobalIdentifier (Identifier name rng) (sourceCode context) = true
       /\ name = RedirectObject_name k).
Proof.
  intros Ht Ha. rewrite isRedirectObject_identifier, Ht, Ha. cbn [orElse].
  destruct (isGlobalIdentifier _ _).
  - unfold redirectObjectOfGlobalName. split.
    + destruct (String.eqb name "location") eqn:E1;
        [apply String.eqb_eq in E1 as ->; intros [= <-]; auto|].
      destruct (String.eqb name "window") eqn:E2;
        [apply String.eqb_eq in E2 as ->; intros [= <-]; auto|].
      destruct (String.eqb name "navigation") eqn:E3;
        [apply String.eqb_eq in E3 as ->; intros [= <-]; auto|].
      discriminate.
    + intros [_ ->]. destruct k; reflexivity.
  - split; [discriminate|]. intros [H _]. discriminate H.
Qed.

End ResolverExtras.

Section ResolverWitnesses.

Import Rule.

Lemma member_resolution_lexical_witness :
  redirectObjectByType untyped (windowChainLocation 0) = None
  /\ isRedirectObject untyped ∅ (windowChainLocation 0) = Some ObjLocation
  /\ ObjLocation <> ObjWindow.
Proof.
  split; [reflexivity|]. split; [reflexivity|].
  exact (proj1 (member_resolution_lexical untyped ∅ (windowChain 0)
                  (Identifier "location" (7, 15)) false false ObjLocation
                  eq_refl eq_refl)).
Defined.

Lemma identifier_resolution_lexical_witness :
  redirectObjectByType untyped (Identifier "navigation" (0, 10)) = None
  /\ isRedirectObject untyped ∅ (Identifier "navigation" (0, 10))
     = Some ObjNavigation.
Proof.
  split; [reflexivity|].
  assert (Ha : (∅ : gmap string VariableInfo) !! "navigation" = None)
    by (vm_compute; reflexivity).
  apply (identifier_resolution_lexical untyped ∅ "navigation" (0, 10)
           ObjNavigation eq_refl Ha).
  split; reflexivity.
Defined.

End ResolverWitnesses.

(** ** The visitor, beyond the claims *)

Section NodeInduction.

Import Rule.

Variable P : Node -> Prop.

Hypothesis P_Identifier : forall name rng, P (Identifier name rng).
Hypothesis P_Literal : forall value, P (Literal value).
Hypothesis P_TemplateLiteral :
  forall quasis expressions, Forall P expressions ->
                             P (TemplateLiteral quasis expressions).
Hypothesis P_BinaryExpression :
  forall operator l r, P l -> P r -> P (BinaryExpression operator l r).
Hypothesis P_MemberExpression :
  forall o p c opt, P o -> P p -> P (MemberExpression o p c opt).
Hypothesis P_CallExpression :
  forall callee args, P callee -> Forall P args -> P (CallExpression callee args).
Hypothesis P_ChainExpression : forall e, P e -> P (ChainExpression e).
Hypothesis P_AssignmentExpression :
  forall operator l r, P l -> P r -> P (AssignmentExpression operator l r).
Hypothesis P_VariableDeclarator :
  forall id init, P id -> (forall i, init = Some i -> P i) ->
                  P (VariableDeclarator id init).
Hypothesis P_WithStatement :
  forall o b, P o -> P b -> P (WithStatement o b).
Hypothesis P_OtherNode :
  forall type children, Forall P children -> P (OtherNode type children).

(** Induction on syntax trees, with the hypothesis on every child. *)
Lemma Node_nested_ind : forall n, P n.
Proof.
  fix IH 1. intros n.
  destruct n as [name rng|value|quasis es|operator l r|o p c opt|callee args
                 |e|operator l r|id init|o b|type children].
  - apply P_Identifier.
  - apply P_Literal.
  - apply P_TemplateLiteral. revert es.
    fix IHl 1. intros [|c ns]; constructor; [apply IH|apply IHl].
  - apply P_BinaryExpression; apply IH.
  - apply P_MemberExpression; apply IH.
  - apply P_CallExpression; [apply IH|]. revert args.
    fix IHl 1. intros [|c ns]; constructor; [apply IH|apply IHl].
  - apply P_ChainExpression, IH.
  - apply P_AssignmentExpression; apply IH.
  - apply P_VariableDeclarator; [apply IH|].
    destruct init as [i0|]; intros i Hi; [|discriminate Hi].
    injection Hi as <-. apply IH.
  - apply P_WithStatement; apply IH.
  - apply P_OtherNode. revert children.
    fix IHl 1. intros [|c ns]; constructor; [apply IH|apply IHl].
Qed.

End NodeInduction.

Section FollowsFacts.

Import Rule.

Variable context : Context.

Lemma Follows_refl (st : State) : Follows context st st.
Proof.
  split; [reflexivity|]. split; [auto|].
  exists []. split; [now rewrite app_nil_r|constructor].
Qed.

Lemma Follows_trans (st1 st2 st3 : State) :
  Follows context st1 st2 -> Follows context st2 st3 -> Follows context st1 st3.
Proof.
  intros (Hw1 & Ha1 & l1 & Hr1 & Hu1) (Hw2 & Ha2 & l2 & Hr2 & Hu2).
  split; [congruence|]. split; [auto|].
  exists (l1 ++ l2)%list. split.
  - rewrite Hr2, Hr1. now rewrite <- app_assoc.
  - apply Forall_app. auto.
Qed.

Lemma Follows_report (st st' : State) (v : Node) :
  isValueSafe context v = false ->
  Follows context st st' ->
  Follows context st (reportUnsafeRedirect v st').
Proof.
  intros Hv H. apply (Follows_trans _ _ _ H).
  split; [reflexivity|]. split; [auto|].
  eexists. split; [reflexivity|]. repeat constructor. exact Hv.
Qed.

Lemma Follows_reportUnlessSafe (st st' : State) (v : Node) :
  Follows context st st' ->
  Follows context st (reportUnlessSafe context v st').
Proof.
  intros H. unfold reportUnlessSafe.
  destruct (isValueSafe context v) eqn:Hv; [exact H|].
  now apply Follows_report.
Qed.

Lemma Follows_reportFirstArg (st st' : State) (args : list Node) :
  Follows context st st' ->
  Follows context st (reportFirstArgUnlessSafe context args st').
Proof.
  intros H. unfold reportFirstArgUnlessSafe.
  destruct (args !! 0%nat); [|exact H]. now apply Follows_reportUnlessSafe.
Qed.

Lemma Follows_andThen (st : State) (f : Flow) (k : State -> Flow) :
  Follows context st (finish f) ->
  (forall st', Follows context st st' -> Follows context st (finish (k st'))) ->
  Follows context st (finish (andThen f k)).
Proof. destruct f; cbn [andThen finish]; auto. Qed.

Create HintDb follows.

Local Hint Resolve Follows_refl Follows_reportUnlessSafe Follows_reportFirstArg
  : follows.

Lemma Follows_assignToMember
  (st0 st : State) (unwrappedLeft object property : Node) (computed : bool)
  (right_ : Node) :
  Follows context st0 st ->
  Follows context st0
    (finish (assignToMember context unwrappedLeft object property computed
               right_ st)).
Proof.
  intros H. unfold assignToMember.
  apply Follows_andThen.
  { destruct (_ && _); [|exact H].
    destruct (isObj _ _); cbn [finish]; auto with follows. }
  intros st1 H1. apply Follows_andThen.
  { destruct (isIdentifierNamed property "location"); [|exact H1].
    destruct (isObj _ _); cbn [finish]; auto with follows.
    destruct (_ && _); [|exact H1].
    destruct (_ || _); cbn [finish]; auto with follows. }
  intros st2 H2. destruct computed; [|exact H2].
  destruct (isObj _ _); cbn [finish]; auto with follows.
Qed.

Lemma Follows_assignToIdentifier
  (st0 st : State) (left_ : Node) (name : string) (right_ : Node) :
  Follows context st0 st ->
  Follows context st0
    (finish (assignToIdentifier context left_ name right_ st)).
Proof.
  intros H. unfold assignToIdentifier.
  destruct (isObj _ _); cbn [finish]; auto with follows.
  destruct (getCurrentWithObject st) as [within|]; [|exact H].
  apply Follows_andThen.
  { destruct (getType context left_) as [leftType|]; [|exact H].
    destruct (_ || _); [|exact H].
    destruct (String.eqb name "href" && negb (isValueSafe context right_))
      eqn:E; [|exact H].
    cbn [finish]. apply andb_true_iff in E as [_ E].
    apply negb_true_iff in E. now apply Follows_report. }
  intros st1 H1. destruct (_ && _); cbn [finish]; auto with follows.
Qed.

Lemma Follows_onAssignmentExpression (st : State) (n : Node) :
  Follows context st (onAssignmentExpression context n st).
Proof.
  destruct n as [| | | | | | |operator l r| | |]; try apply Follows_refl.
  unfold onAssignmentExpression. apply Follows_andThen.
  - destruct (unwrapChainExpression l); try apply Follows_refl.
    apply Follows_assignToMember, Follows_refl.
  - intros st1 H1. destruct l; try exact H1.
    now apply Follows_assignToIdentifier.
Qed.

Lemma Follows_onCallExpression (st : State) (n : Node) :
  Follows context st (onCallExpression context n st).
Proof.
  destruct n as [| | | | |callee args| | | | |]; try apply Follows_refl.
  unfold onCallExpression.
  destruct (getOpenCallInfo _) as [openInfo|].
  - destruct (match openInfo with OpenGlobal _ => _ | OpenMethod _ => _ end);
      auto with follows.
  - set (st1 := match unwrapChainExpression callee with
                | MemberExpression _ _ _ _ => _
                | _ => st
                end).
    assert (H1 : Follows context st st1).
    { subst st1. destruct (unwrapChainExpression callee);
        try apply Follows_refl.
      destruct (isSink _ SinkNavigate).
      - destruct (isObj _ ObjNavigation).
        + apply Follows_reportFirstArg.
          destruct (_ || _); [|apply Follows_refl].
          destruct (isObj _ _); auto with follows.
        + destruct (_ || _); [|apply Follows_refl].
          destruct (isObj _ _); auto with follows.
      - destruct (_ || _); [|apply Follows_refl].
        destruct (isObj _ _); auto with follows. }
    destruct callee as [name rng| | | | | | | | | |]; try exact H1.
    destruct (isObj (getCurrentWithObject st1) ObjLocation); [|exact H1].
    destruct (String.eqb name "replace" || String.eqb name "assign");
      [|exact H1].
    now apply Follows_reportFirstArg.
Qed.

(** The declarator handler touches the alias map alone, and only by
    adding or overwriting an entry. *)
Lemma Follows_onVariableDeclarator (st : State) (n : Node) :
  Follows context st (onVariableDeclarator context n st).
Proof.
  destruct n as [| | | | | | | |id init| |]; try apply Follows_refl.
  destruct id as [name rng| | | | | | | | | |]; try apply Follows_refl.
  destruct init as [init|]; [|apply Follows_refl].
  cbn [onVariableDeclarator].
  destruct (isRedirectObject context (trackedVariables st) init) as [k|];
    [|apply Follows_refl].
  split; [reflexivity|]. split.
  - intros other Ho. cbn [trackedVariables].
    destruct (decide (name = other)) as [->|Hne].
    + rewrite lookup_insert_eq. eauto.
    + now rewrite lookup_insert_ne.
  - exists []. cbn [reported]. split; [now rewrite app_nil_r|constructor].
Qed.

End FollowsFacts.

Section TraversalExtras.

Import Rule.

Variable context : Context.

Lemma traverse_OtherNode (type : string) (children : list Node) (st : State) :
  traverse context (OtherNode type children) st
  = traverseAll context children st.
Proof.
  revert st. induction children as [|c children IH]; intros st; [reflexivity|].
  change (traverse context (OtherNode type (c :: children)) st)
    with (traverse context (OtherNode type children) (traverse context c st)).
  rewrite IH. reflexivity.
Qed.

Lemma traverse_TemplateLiteral
  (quasis : list TemplateElement) (expressions : list Node) (st : State) :
  traverse context (TemplateLiteral quasis expressions) st
  = traverseAll context expressions st.
Proof. rewrite <- (traverse_OtherNode "" expressions st). reflexivity. Qed.

Lemma traverse_CallExpression (callee : Node) (args : list Node) (st : State) :
  traverse context (CallExpression callee args) st
  = traverseAll context args
      (traverse context callee
         (onCallExpression context (CallExpression callee args) st)).
Proof. rewrite <- (traverse_OtherNode "" args). reflexivity. Qed.

Lemma Follows_traverseAll (ns : list Node) :
  Forall (fun n => forall st, Follows context st (traverse context n st)) ns ->
  forall st, Follows context st (traverseAll context ns st).
Proof.
  induction 1 as [|n ns Hn _ IH]; intros st; [apply Follows_refl|].
  change (traverseAll context (n :: ns) st)
    with (traverseAll context ns (traverse context n st)).
  eapply Follows_trans; [apply Hn|apply IH].
Qed.

(** Across the walk of any tree: the with-stack comes back as it was, no
    alias is dropped, diagnostics are only appended, each for an unsafe
    value. *)
Lemma Follows_traverse (n : Node) :
  forall st, Follows context st (traverse context n st).
Proof.
  induction n using Node_nested_ind; intros st.
  - apply Follows_refl.
  - apply Follows_refl.
  - rewrite traverse_TemplateLiteral. now apply Follows_traverseAll.
  - cbn [traverse]. eapply Follows_trans; [apply IHn1|apply IHn2].
  - cbn [traverse]. eapply Follows_trans; [apply IHn1|apply IHn2].
  - rewrite traverse_CallExpression.
    eapply Follows_trans; [apply Follows_onCallExpression|].
    eapply Follows_trans; [apply IHn|]. now apply Follows_traverseAll.
  - cbn [traverse]. apply IHn.
  - cbn [traverse].
    eapply Follows_trans; [apply Follows_onAssignmentExpression|].
    eapply Follows_trans; [apply IHn1|apply IHn2].
  - cbn [traverse].
    eapply Follows_trans; [apply Follows_onVariableDeclarator|].
    eapply Follows_trans; [apply IHn|].
    destruct init as [i|]; [now apply H|apply Follows_refl].
  - cbn [traverse].
    set (st1 := onWithStatement context (WithStatement n1 n2) st).
    assert (H : Follows context st1
                  (traverse context n2 (traverse context n1 st1)))
      by (eapply Follows_trans; [apply IHn1|apply IHn2]).
    destruct H as (Hw & Ha & added & Hr & Hu).
    split; [|split].
    + cbn [onWithStatementExit withStack]. rewrite Hw. subst st1.
      cbn [onWithStatement withStack]. apply removelast_last.
    + intros name Hn. cbn [onWithStatementExit trackedVariables].
      apply Ha. exact Hn.
    + exists added. cbn [onWithStatementExit reported]. split; [|exact Hu].
      rewrite Hr. reflexivity.
  - rewrite traverse_OtherNode. now apply Follows_traverseAll.
Qed.

(** X18.  However [with] statements nest in a tree, the walk leaves the
    with-stack as it found it: every push at a [with] is matched by its
    pop. *)
Theorem traverse_balances_withStack (n : Node) (st : State) :
  withStack (traverse context n st) = withStack st.
Proof. exact (proj1 (Follows_traverse n st)). Qed.

(** X19.  The walk only appends diagnostics, and each one it appends has
    the message [unsafeRedirect] and sits on a value that the classifier
    rejects; so every diagnostic of a file does. *)
Theorem traverse_reports_only_unsafe_values (n : Node) (st : State) :
  (exists added,
     reported (traverse context n st) = (reported st ++ added)%list
     /\ Forall (Unsafe context) added)
  /\ Forall (Unsafe context) (lint context n).
Proof.
  split; [exact (proj2 (proj2 (Follows_traverse n st)))|].
  unfold lint.
  destruct (proj2 (proj2 (Follows_traverse n initialState)))
    as (added & -> & Hu).
  exact Hu.
Qed.

(** X20.  The alias map is flat and only ever added to: a name recorded
    as an alias stays recorded to the end of the walk, whatever is
    declared after it and in whatever scope. *)
Theorem traverse_keeps_aliases (n : Node) (st : State) (name : string) :
  is_Some (trackedVariables st !! name) ->
  is_Some (trackedVariables (traverse context n st) !! name).
Proof. exact (proj1 (proj2 (Follows_traverse n st)) name). Qed.

End TraversalExtras.

Section TraversalWitnesses.

Import Rule.

Lemma traverse_keeps_aliases_witness :
  is_Some (trackedVariables
             (onVariableDeclarator untyped
                (VariableDeclarator (Identifier "loc" (4, 7))
                   (Some (Identifier "location" (10, 18)))) initialState)
           !! "loc")
  /\ is_Some (trackedVariables
                (traverse untyped
                   (VariableDeclarator (Identifier "loc" (24, 27))
                      (Some (Literal (LitString "x"))))
                   (onVariableDeclarator untyped
                      (VariableDeclarator (Identifier "loc" (4, 7))
                         (Some (Identifier "location" (10, 18)))) initialState))
              !! "loc").
Proof.
  assert (H : is_Some (trackedVariables
             (onVariableDeclarator untyped
                (VariableDeclarator (Identifier "loc" (4, 7))
                   (Some (Identifier "location" (10, 18)))) initialState)
           !! "loc")) by (vm_compute; eauto).
  split; [exact H|].
  exact (traverse_keeps_aliases untyped _ _ "loc" H).
Defined.

End TraversalWitnesses.

Section HandlerExtras.

Import Rule.

Variable context : Context.

(** X16.  A declaration [name = init] whose initializer resolves to a
    kind makes every later identifier of that name resolve to the same
    kind, wherever it stands, unless the type block answers for it; the
    other names, the with-stack and the diagnostics are left alone.  A
    declaration whose initializer resolves to nothing changes nothing: it
    does not retire an alias recorded under the name. *)
Theorem alias_tracking
  (st : State) (name : string) (rng : Range) (init : Node) :
  (forall k : RedirectObject,
     isRedirectObject context (trackedVariables st) init = Some k ->
     (forall rng',
        redirectObjectByType context (Identifier name rng') = None ->
        isRedirectObject context
          (trackedVariables
             (onVariableDeclarator context
                (VariableDeclarator (Identifier name rng) (Some init)) st))
          (Identifier name rng') = Some k)
     /\ (forall other,
           other <> name ->
           trackedVariables
             (onVariableDeclarator context
                (VariableDeclarator (Identifier name rng) (Some init)) st)
           !! other = trackedVariables st !! other)
     /\ withStack
          (onVariableDeclarator context
             (VariableDeclarator (Identifier name rng) (Some init)) st)
        = withStack st
     /\ reported
          (onVariableDeclarator context
             (VariableDeclarator (Identifier name rng) (Some init)) st)
        = reported st)
  /\ (isRedirectObject context (trackedVariables st) init = None ->
      onVariableDeclarator context
        (VariableDeclarator (Identifier name rng) (Some init)) st = st).
Proof.
  split.
  - intros k Hk. cbn [onVariableDeclarator]. rewrite Hk.
    cbn [trackedVariables withStack reported]. repeat split.
    + intros rng' Ht. rewrite isRedirectObject_identifier, Ht.
      rewrite lookup_insert_eq. destruct k; reflexivity.
    + intros other Hne. now rewrite lookup_insert_ne.
  - intros Hn. cbn [onVariableDeclarator]. now rewrite Hn.
Qed.

(** X17.  Inside [with (object)] the current with-object is what the
    header resolves to, nothing included: an unresolved inner header hides
    a resolved outer one.  Leaving the statement restores the state of
    before entering it. *)
Theorem with_enter_exit (object body : Node) (st : State) :
  getCurrentWithObject (onWithStatement context (WithStatement object body) st)
  = isRedirectObject context (trackedVariables st) object
  /\ onWithStatementExit (onWithStatement context (WithStatement object body) st)
     = st.
Proof.
  split.
  - unfold getCurrentWithObject, onWithStatement. cbn [withStack].
    rewrite last_snoc. reflexivity.
  - destruct st as [tracked ws rep].
    unfold onWithStatementExit, onWithStatement.
    cbn [trackedVariables withStack reported].
    now rewrite removelast_last.
Qed.

Lemma finish_andThen_same (st : State) (f : Flow) (k : State -> Flow) :
  finish f = st -> (finish (k st) = st) -> finish (andThen f k) = st.
Proof. destruct f; cbn [andThen finish]; intros ->; auto. Qed.

(** X21.  A safe value is never reported: the assignment handler leaves
    the state alone when the right-hand side is safe, and the call handler
    does when the first argument is safe or missing.  The call handler
    reads the first argument alone. *)
Theorem safe_value_never_reported (st : State) :
  (forall operator left_ right_,
     isValueSafe context right_ = true ->
     onAssignmentExpression context
       (AssignmentExpression operator left_ right_) st = st)
  /\ (forall callee,
        onCallExpression context (CallExpression callee []) st = st)
  /\ (forall callee urlArg rest,
        onCallExpression context (CallExpression callee (urlArg :: rest)) st
        = onCallExpression context (CallExpression callee [urlArg]) st)
  /\ (forall callee urlArg rest,
        isValueSafe context urlArg = true ->
        onCallExpression context (CallExpression callee (urlArg :: rest)) st
        = st).
Proof.
  split; [|split; [|split]].
  - intros operator left_ right_ Hsafe. unfold onAssignmentExpression.
    apply finish_andThen_same.
    + destruct (unwrapChainExpression left_); try reflexivity.
      unfold assignToMember, reportUnlessSafe. rewrite Hsafe.
      repeat (apply finish_andThen_same);
        repeat match goal with
               | |- context [if ?b then _ else _] => destruct b
               end; reflexivity.
    + destruct left_; try reflexivity.
      unfold assignToIdentifier, reportUnlessSafe.
      rewrite Hsafe. cbn [negb]. rewrite andb_false_r.
      destruct (isObj _ _); [reflexivity|].
      destruct (getCurrentWithObject st); [|reflexivity].
      apply finish_andThen_same.
      * destruct (getType context _); [|reflexivity].
        destruct (_ || _); reflexivity.
      * destruct (_ && _); reflexivity.
  - intros callee. unfold onCallExpression, reportFirstArgUnlessSafe.
    cbn [lookup list_lookup].
    destruct (getOpenCallInfo _) as [openInfo|].
    + destruct (match openInfo with OpenGlobal _ => _ | OpenMethod _ => _ end);
        reflexivity.
    + destruct (unwrapChainExpression callee), callee;
        repeat match goal with
               | |- context [if ?b then _ else _] => destruct b
               end; reflexivity.
  - reflexivity.
  - intros callee urlArg rest Hsafe.
    unfold onCallExpression, reportFirstArgUnlessSafe, reportUnlessSafe.
    cbn [lookup list_lookup]. rewrite Hsafe.
    destruct (getOpenCallInfo _) as [openInfo|].
    + destruct (match openInfo with OpenGlobal _ => _ | OpenMethod _ => _ end);
        reflexivity.
    + destruct (unwrapChainExpression callee), callee;
        repeat match goal with
               | |- context [if ?b then _ else _] => destruct b
               end; reflexivity.
Qed.

(** X22.  An optional-chaining wrapper around the target of an
    assignment, or around a callee whose property is not [open], is looked
    through: the handlers answer as for the bare member expression.  A
    wrapped callee whose property is [open] is no sink. *)
Theorem chain_wrapper_looked_through
  (st : State) (object property : Node) (computed optional : bool) :
  (forall operator right_,
     onAssignmentExpression context
       (AssignmentExpression operator
          (ChainExpression (MemberExpression object property computed optional))
          right_) st
     = onAssignmentExpression context
         (AssignmentExpression operator
            (MemberExpression object property computed optional) right_) st)
  /\ (forall args,
        isIdentifierNamed property "open" = false ->
        onCallExpression context
          (CallExpression
             (ChainExpression (MemberExpression object property computed optional))
             args) st
        = onCallExpression context
            (CallExpression (MemberExpression object property computed optional)
               args) st)
  /\ (forall args,
        isIdentifierNamed property "open" = true ->
        onCallExpression context
          (CallExpression
             (ChainExpression (MemberExpression object property computed optional))
             args) st
        = st).
Proof.
  split; [|split].
  - intros operator right_. unfold onAssignmentExpression.
    cbn [unwrapChainExpression].
    destruct (assignToMember _ _ _ _ _ _ _); reflexivity.
  - intros args Hp. unfold onCallExpression, getOpenCallInfo.
    cbn [isIdentifierNamed unwrapChainExpression]. rewrite Hp. reflexivity.
  - intros args Hp. unfold onCallExpression, getOpenCallInfo.
    cbn [isIdentifierNamed unwrapChainExpression getRedirectSinkType].
    destruct property as [pname prng| | | | | | | | | |]; try discriminate Hp.
    cbn [isIdentifierNamed] in Hp. apply String.eqb_eq in Hp as ->.
    reflexivity.
Qed.

(** X23.  [getBaseObject] ends on something that is not a member
    expression, and applying it again changes nothing. *)
Theorem getBaseObject_is_base (n : Node) :
  (forall object property computed optional,
     getBaseObject n <> MemberExpression object property computed optional)
  /\ getBaseObject (getBaseObject n) = getBaseObject n.
Proof.
  induction n; try (split; [discriminate|reflexivity]).
  exact IHn1.
Qed.

End HandlerExtras.

Section SinkExtras.

Import Rule.

Variable context : Context.

Lemma reportUnlessSafe_unsafe (v : Node) (st : State) :
  isValueSafe context v = false ->
  reportUnlessSafe context v st = reportUnsafeRedirect v st.
Proof. intros H. unfold reportUnlessSafe. now rewrite H. Qed.

Lemma sinkType_property_is_identifier (property : Node) (k : SinkType) :
  sinkTypeOfProperty property = Some k ->
  isIdentifier property = true /\ isIdentifierNamed property "location" = false.
Proof.
  destruct property as [name rng| | | | | | | | | |]; try discriminate.
  cbn [sinkTypeOfProperty isIdentifier isIdentifierNamed]. intros H.
  split; [reflexivity|].
  destruct (String.eqb name "location") eqn:E; [|reflexivity].
  apply String.eqb_eq in E as ->. discriminate H.
Qed.

(** X24.  Every assignment sink with an unsafe right-hand side draws
    exactly one diagnostic, on the right-hand side: a member named [href],
    [replace], [assign] or [navigate] of something that resolves to
    [location]; the member [location] of something that resolves to the
    window object; a bare identifier that resolves to [location]; a
    computed member, with any key that is not an identifier, of something
    that resolves to [location]; and [href] inside [with (location)]. *)
Theorem assignment_sinks_reported
  (st : State) (operator : string) (right_ : Node) :
  isValueSafe context right_ = false ->
  (forall object property computed optional k,
     getRedirectSinkType (MemberExpression object property computed optional)
     = Some k ->
     isRedirectObject context (trackedVariables st) object = Some ObjLocation ->
     onAssignmentExpression context
       (AssignmentExpression operator
          (MemberExpression object property computed optional) right_) st
     = reportUnsafeRedirect right_ st)
  /\ (forall object rng computed optional,
        isRedirectObject context (trackedVariables st) object = Some ObjWindow ->
        onAssignmentExpression context
          (AssignmentExpression operator
             (MemberExpression object (Identifier "location" rng) computed
                optional) right_) st
        = reportUnsafeRedirect right_ st)
  /\ (forall name rng,
        isRedirectObject context (trackedVariables st) (Identifier name rng)
        = Some ObjLocation ->
        onAssignmentExpression context
          (AssignmentExpression operator (Identifier name rng) right_) st
        = reportUnsafeRedirect right_ st)
  /\ (forall object property optional,
        isIdentifier property = false ->
        isRedirectObject context (trackedVariables st) object = Some ObjLocation ->
        onAssignmentExpression context
          (AssignmentExpression operator
             (MemberExpression object property true optional) right_) st
        = reportUnsafeRedirect right_ st)
  /\ (forall rng,
        getCurrentWithObject st = Some ObjLocation ->
        onAssignmentExpression context
          (AssignmentExpression operator (Identifier "href" rng) right_) st
        = reportUnsafeRedirect right_ st).
Proof.
  intros Hu. repeat split.
  - intros object property computed optional k Hk Ho.
    rewrite onAssignmentExpression_member. unfold assignToMember.
    rewrite Hk, Ho. cbn [getRedirectSinkType] in Hk.
    destruct (sinkType_property_is_identifier property k Hk) as [-> _].
    cbn [isSomeSink andb isObj RedirectObject_eqb andThen finish].
    now apply reportUnlessSafe_unsafe.
  - intros object rng computed optional Ho.
    rewrite onAssignmentExpression_member. unfold assignToMember.
    change (getRedirectSinkType
              (MemberExpression object (Identifier "location" rng) computed
                 optional)) with (@None SinkType).
    change (isIdentifierNamed (Identifier "location" rng) "location") with true.
    cbn [isSomeSink andb andThen]. rewrite Ho.
    cbn [isObj RedirectObject_eqb andThen finish].
    now apply reportUnlessSafe_unsafe.
  - intros name rng Ho. rewrite onAssignmentExpression_identifier.
    unfold assignToIdentifier. rewrite Ho.
    cbn [isObj RedirectObject_eqb finish]. now apply reportUnlessSafe_unsafe.
  - intros object property optional Hp Ho.
    rewrite onAssignmentExpression_member. unfold assignToMember.
    rewrite Hp, andb_false_r. cbn [andThen].
    replace (isIdentifierNamed property "location") with false
      by (destruct property; try reflexivity; discriminate Hp).
    cbn [andThen]. rewrite Ho. cbn [isObj RedirectObject_eqb finish].
    now apply reportUnlessSafe_unsafe.
  - intros rng Hw. rewrite onAssignmentExpression_identifier.
    unfold assignToIdentifier. rewrite Hw, Hu.
    destruct (isObj _ _); cbn [finish]; [now apply reportUnlessSafe_unsafe|].
    change (String.eqb "href" "href") with true. cbn [negb andb].
    destruct (getType context (Identifier "href" rng)) as [leftType|].
    + destruct (_ || _); cbn [andThen finish RedirectObject_eqb];
        [reflexivity|now apply reportUnlessSafe_unsafe].
    + cbn [andThen finish RedirectObject_eqb].
      now apply reportUnlessSafe_unsafe.
Qed.

(** X25.  Every call sink with an unsafe first argument draws exactly one
    diagnostic, on that argument: [replace] or [assign] on something that
    resolves to [location]; [navigate] on something that resolves to
    [navigation]; [open] on something that resolves to the window object;
    [open] taken for the global; and bare [replace] or [assign] inside
    [with (location)]. *)
Theorem call_sinks_reported
  (st : State) (urlArg : Node) (rest : list Node) :
  isValueSafe context urlArg = false ->
  (forall object rng computed optional method,
     method = "replace" \/ method = "assign" ->
     isRedirectObject context (trackedVariables st) object = Some ObjLocation ->
     onCallExpression context
       (CallExpression
          (MemberExpression object (Identifier method rng) computed optional)
          (urlArg :: rest)) st
     = reportUnsafeRedirect urlArg st)
  /\ (forall object rng computed optional,
        isRedirectObject context (trackedVariables st) object
        = Some ObjNavigation ->
        onCallExpression context
          (CallExpression
             (MemberExpression object (Identifier "navigate" rng) computed
                optional) (urlArg :: rest)) st
        = reportUnsafeRedirect urlArg st)
  /\ (forall object rng computed optional,
        isRedirectObject context (trackedVariables st) object = Some ObjWindow ->
        onCallExpression context
          (CallExpression
             (MemberExpression object (Identifier "open" rng) computed optional)
             (urlArg :: rest)) st
        = reportUnsafeRedirect urlArg st)
  /\ (forall rng,
        isGlobalIdentifier (Identifier "open" rng) (sourceCode context) = true ->
        onCallExpression context
          (CallExpression (Identifier "open" rng) (urlArg :: rest)) st
        = reportUnsafeRedirect urlArg st)
  /\ (forall rng method,
        method = "replace" \/ method = "assign" ->
        getCurrentWithObject st = Some ObjLocation ->
        onCallExpression context
          (CallExpression (Identifier method rng) (urlArg :: rest)) st
        = reportUnsafeRedirect urlArg st).
Proof.
  intros Hu.
  assert (Hr : reportFirstArgUnlessSafe context (urlArg :: rest) st
               = reportUnsafeRedirect urlArg st)
    by (unfold reportFirstArgUnlessSafe; cbn [lookup list_lookup];
        now apply reportUnlessSafe_unsafe).
  repeat split.
  - intros object rng computed optional method Hm Ho.
    destruct Hm as [-> | ->]; unfold onCallExpression, getOpenCallInfo;
      cbn [isIdentifierNamed unwrapChainExpression]; rewrite Ho;
      cbn -[reportFirstArgUnlessSafe]; rewrite ?Ho;
      cbn -[reportFirstArgUnlessSafe]; exact Hr.
  - intros object rng computed optional Ho.
    unfold onCallExpression, getOpenCallInfo.
    cbn [isIdentifierNamed unwrapChainExpression]. rewrite Ho.
    cbn -[reportFirstArgUnlessSafe]. rewrite ?Ho.
    cbn -[reportFirstArgUnlessSafe]. exact Hr.
  - intros object rng computed optional Ho.
    unfold onCallExpression, getOpenCallInfo.
    cbn [isIdentifierNamed unwrapChainExpression]. rewrite Ho.
    cbn -[reportFirstArgUnlessSafe]. rewrite ?Ho.
    cbn -[reportFirstArgUnlessSafe]. exact Hr.
  - intros rng Hg. unfold onCallExpression, getOpenCallInfo.
    cbn [isIdentifierNamed]. change (String.eqb "open" "open") with true.
    cbv iota. rewrite Hg. exact Hr.
  - intros rng method Hm Hw.
    destruct Hm as [-> | ->]; unfold onCallExpression, getOpenCallInfo;
      cbn [isIdentifierNamed unwrapChainExpression]; rewrite Hw;
      cbn -[reportFirstArgUnlessSafe]; exact Hr.
Qed.

End SinkExtras.

Section HandlerWitnesses.

Import Rule.

Lemma alias_tracking_witness :
  isRedirectObject untyped (trackedVariables initialState)
    (Identifier "location" (10, 18)) = Some ObjLocation
  /\ isRedirectObject untyped
       (trackedVariables
          (onVariableDeclarator untyped
             (VariableDeclarator (Identifier "loc" (4, 7))
                (Some (Identifier "location" (10, 18)))) initialState))
       (Identifier "loc" (20, 23)) = Some ObjLocation.
Proof.
  assert (H : isRedirectObject untyped (trackedVariables initialState)
                (Identifier "location" (10, 18)) = Some ObjLocation)
    by (vm_compute; reflexivity).
  split; [exact H|].
  exact (proj1 (proj1 (alias_tracking untyped initialState "loc" (4, 7)
                         (Identifier "location" (10, 18))) ObjLocation H)
           (20, 23) eq_refl).
Defined.

Lemma safe_value_never_reported_witness :
  isValueSafe untyped (Literal (LitString "/dashboard")) = true
  /\ onAssignmentExpression untyped
       (AssignmentExpression "="
          (MemberExpression (Identifier "location" (0, 8))
             (Identifier "href" (9, 13)) false false)
          (Literal (LitString "/dashboard"))) initialState
     = initialState.
Proof.
  split; [reflexivity|].
  exact (proj1 (safe_value_never_reported untyped initialState) "="
           (MemberExpression (Identifier "location" (0, 8))
              (Identifier "href" (9, 13)) false false)
           (Literal (LitString "/dashboard")) eq_refl).
Defined.

Lemma chain_wrapper_witness :
  isIdentifierNamed (Identifier "replace" (10, 17)) "open" = false
  /\ onCallExpression untyped
       (CallExpression
          (ChainExpression
             (MemberExpression (Identifier "location" (0, 8))
                (Identifier "replace" (10, 17)) false true))
          [someVariable]) initialState
     = onCallExpression untyped
         (CallExpression
            (MemberExpression (Identifier "location" (0, 8))
               (Identifier "replace" (10, 17)) false true)
            [someVariable]) initialState.
Proof.
  split; [reflexivity|].
  exact (proj1 (proj2 (chain_wrapper_looked_through untyped initialState
                         (Identifier "location" (0, 8))
                         (Identifier "replace" (10, 17)) false true))
           [someVariable] eq_refl).
Defined.

Lemma assignment_sinks_witness :
  isValueSafe untyped someVariable = false
  /\ isRedirectObject untyped (trackedVariables initialState)
       (Identifier "location" (0, 8)) = Some ObjLocation
  /\ onAssignmentExpression untyped
       (AssignmentExpression "="
          (MemberExpression (Identifier "location" (0, 8))
             (Identifier "href" (9, 13)) false false) someVariable)
       initialState
     = reportUnsafeRedirect someVariable initialState.
Proof.
  assert (H : isRedirectObject untyped (trackedVariables initialState)
                (Identifier "location" (0, 8)) = Some ObjLocation)
    by (vm_compute; reflexivity).
  split; [reflexivity|]. split; [exact H|].
  exact (proj1 (assignment_sinks_reported untyped initialState "=" someVariable
                  eq_refl)
           (Identifier "location" (0, 8)) (Identifier "href" (9, 13))
           false false SinkHref eq_refl H).
Defined.

Lemma call_sinks_witness :
  isValueSafe untyped someVariable = false
  /\ isGlobalIdentifier (Identifier "open" (0, 4)) (sourceCode untyped) = true
  /\ onCallExpression untyped
       (CallExpression (Identifier "open" (0, 4)) [someVariable]) initialState
     = reportUnsafeRedirect someVariable initialState.
Proof.
  assert (H : isGlobalIdentifier (Identifier "open" (0, 4)) (sourceCode untyped)
              = true) by (vm_compute; reflexivity).
  split; [reflexivity|]. split; [exact H|].
  exact (proj1 (proj2 (proj2 (proj2
           (call_sinks_reported untyped initialState someVariable [] eq_refl))))
           (0, 4) H).
Defined.

End HandlerWitnesses.
